(** * A to-do list over a live document store: model of [src/App.js]

    The React component [App] keeps five state cells, registers two
    callbacks with the backend (identity changes, collection snapshots) and
    exposes three handlers (add, toggle, delete).  The backend itself
    (authentication, storage, change notification) is an external
    collaborator: every call the component makes to it is recorded in a
    trace, and the answer of an awaited call (fulfilled or rejected) is
    supplied by an arbitrary oracle. *)

From Stdlib Require Import NArith ZArith String Ascii List.
From stdpp Require Import base option list gmap.

Open Scope N_scope.

(** ** JavaScript strings

    A JavaScript string is a sequence of UTF-16 code units. *)

Abbreviation code_unit := N (only parsing).
Abbreviation jsstring := (list N) (only parsing).

(** A source-code string literal (ASCII) as a JavaScript string. *)
Fixpoint lit (s : string) : jsstring :=
  match s with
  | EmptyString => []
  | String a r => N_of_ascii a :: lit r
  end.

Module JsString.

(** ECMAScript [WhiteSpace]: TAB, VT, FF, ZWNBSP and the code points of
    category Zs. *)
Definition white_space : list N :=
  [ 0x0009; 0x000B; 0x000C; 0xFEFF;
    0x0020; 0x00A0; 0x1680;
    0x2000; 0x2001; 0x2002; 0x2003; 0x2004; 0x2005;
    0x2006; 0x2007; 0x2008; 0x2009; 0x200A;
    0x202F; 0x205F; 0x3000 ].

(** ECMAScript [LineTerminator]: LF, CR, LS, PS. *)
Definition line_terminator : list N :=
  [ 0x000A; 0x000D; 0x2028; 0x2029 ].

(** The code units [String.prototype.trim] strips. *)
Definition is_trimmable (c : N) : bool :=
  existsb (N.eqb c) white_space || existsb (N.eqb c) line_terminator.

Fixpoint trimStart (s : jsstring) : jsstring :=
  match s with
  | [] => []
  | c :: r => if is_trimmable c then trimStart r else s
  end.

Definition trimEnd (s : jsstring) : jsstring :=
  rev (trimStart (rev s)).

(** [String.prototype.trim]: both ends. *)
Definition trim (s : jsstring) : jsstring :=
  trimEnd (trimStart s).

(** Truthiness of a string: every string but the empty one. *)
Definition truthy (s : jsstring) : bool :=
  match s with
  | [] => false
  | _ :: _ => true
  end.

End JsString.

(** ** JavaScript values held in documents and items *)

Inductive Value : Type :=
  | VUndefined
  | VNull
  | VBool (b : bool)
  | VNum (z : Z)
  | VStr (s : list N).

#[global] Instance Value_eq_dec : EqDecision Value.
Proof. solve_decision. Defined.

(** [ToBoolean]. *)
Definition to_boolean (v : Value) : bool :=
  match v with
  | VUndefined | VNull => false
  | VBool b => b
  | VNum z => negb (Z.eqb z 0)
  | VStr s => JsString.truthy s
  end.

(** The operator [!]. *)
Definition js_not (v : Value) : bool := negb (to_boolean v).

(** A plain object: own properties by name. *)
Abbreviation JsObject := (gmap (list N) Value) (only parsing).

(** [{ ...target_props, ...src }]: the properties of [src] are copied over
    those already written, so on a shared name [src] wins. *)
Definition object_spread (target src : JsObject) : JsObject := src ∪ target.

(** ** Completions *)

(** A thrown value or rejection reason. *)
Inductive Error : Type := MkError (message : string).

#[global] Instance Error_eq_dec : EqDecision Error.
Proof. solve_decision. Defined.

Inductive Completion (A : Type) : Type :=
  | Normal (a : A)
  | Throw (e : Error).
Arguments Normal {A} a.
Arguments Throw {A} e.

(** ** Firestore references and snapshots *)

(** A reference holds its resolved path, one entry per segment; the [db]
    handle is the single module-level one. *)
Record CollectionReference : Type := { c_path : list (list N) }.
Record DocumentReference : Type := { d_path : list (list N) }.

#[global] Instance CollectionReference_eq_dec : EqDecision CollectionReference.
Proof. solve_decision. Defined.
#[global] Instance DocumentReference_eq_dec : EqDecision DocumentReference.
Proof. solve_decision. Defined.

(** The path handling of the Firestore SDK ([ResourcePath.fromString]): each
    argument is split on ['/'], empty pieces are dropped, an argument with
    ['//'] in it is refused, and an argument that is not a string has no
    [indexOf] to call.  The SDK's messages are given without the path they
    quote. *)
Module ResourcePath.

Definition slash : N := 0x002F.

(** [path.split('/')] *)
Fixpoint split (path : list N) : list (list N) :=
  match path with
  | [] => [[]]
  | c :: r =>
      if N.eqb c slash then [] :: split r
      else match split r with
           | seg :: segs => (c :: seg) :: segs
           | [] => [[c]]
           end
  end.

(** [path.indexOf('//') >= 0] *)
Fixpoint has_double_slash (path : list N) : bool :=
  match path with
  | a :: r =>
      match r with
      | b :: _ => (N.eqb a slash && N.eqb b slash) || has_double_slash r
      | [] => false
      end
  | [] => false
  end.

(** [path.split('/').filter(segment => segment.length > 0)] *)
Definition pieces (path : list N) : list (list N) :=
  List.filter JsString.truthy (split path).

Fixpoint fromString (pathComponents : list Value) : Completion (list (list N)) :=
  match pathComponents with
  | [] => Normal []
  | VStr path :: rest =>
      if has_double_slash path
      then Throw (MkError "Invalid segment. Paths must not contain // in them.")
      else match fromString rest with
           | Normal segments => Normal (pieces path ++ segments)
           | Throw e => Throw e
           end
  | _ :: _ => Throw (MkError "TypeError: path.indexOf is not a function")
  end.

End ResourcePath.

(** [collection(db, path, ...pathSegments)]: the first argument must not be
    empty and the resolved path must have an odd number of segments. *)
Definition collection (args : list Value) : Completion CollectionReference :=
  match args with
  | [] => Throw (MkError "Function collection() cannot be called with an empty path.")
  | path :: _ =>
      if negb (to_boolean path)
      then Throw (MkError "Function collection() cannot be called with an empty path.")
      else
        match ResourcePath.fromString args with
        | Throw e => Throw e
        | Normal absolutePath =>
            if Nat.even (length absolutePath)
            then Throw (MkError "Invalid collection reference. Collection references must have an odd number of segments.")
            else Normal {| c_path := absolutePath |}
        end
  end.

(** [doc(db, path, ...pathSegments)]: the first argument must not be empty
    and the resolved path must have an even number of segments. *)
Definition doc (args : list Value) : Completion DocumentReference :=
  match args with
  | [] => Throw (MkError "Function doc() cannot be called with an empty path.")
  | path :: _ =>
      if negb (to_boolean path)
      then Throw (MkError "Function doc() cannot be called with an empty path.")
      else
        match ResourcePath.fromString args with
        | Throw e => Throw e
        | Normal absolutePath =>
            if Nat.even (length absolutePath)
            then Normal {| d_path := absolutePath |}
            else Throw (MkError "Invalid document reference. Document references must have an even number of segments.")
        end
  end.


Definition d_id (d : DocumentReference) : list N :=
  List.last (d_path d) [].

(** A string that is one path segment: not empty, no ['/'] in it. *)
Definition single_segment (s : list N) : bool :=
  JsString.truthy s && forallb (fun c => negb (N.eqb c ResourcePath.slash)) s.

(** One document of a query snapshot: [doc.id] and [doc.data()]. *)
Record QueryDocumentSnapshot : Type :=
  { qd_id : list N;
    qd_data : gmap (list N) Value }.

(** A query snapshot, in the order [forEach] visits it. *)
Abbreviation QuerySnapshot := (list QueryDocumentSnapshot) (only parsing).

(** The user object of an identity notification. *)
Record User : Type := { uid : list N }.

(** ** Component state and effects *)

(** The five [useState] cells of [App]. *)
Record AppState : Type :=
  { todos : list (gmap (list N) Value);
    newTodo : list N;
    loading : bool;
    userId : option (list N);
    authReady : bool }.

(** The values of the first render. *)
Definition initial_state : AppState :=
  {| todos := [];
     newTodo := [];
     loading := true;
     userId := None;
     authReady := false |}.

(** Everything a handler or callback does to the outside. *)
Inductive Effect : Type :=
  | EPreventDefault
  | ESignInWithCustomToken (token : list N)
  | ESignInAnonymously
  | EOnSnapshot (c : CollectionReference)
  | EAddDoc (c : CollectionReference) (data : gmap (list N) Value)
  | EUpdateDoc (d : DocumentReference) (data : gmap (list N) Value)
  | EDeleteDoc (d : DocumentReference)
  | EConsoleError (msg : string) (e : Error).

#[global] Instance Effect_eq_dec : EqDecision Effect.
Proof. solve_decision. Defined.

(** Requests that change the remote collection. *)
Definition is_mutation (e : Effect) : bool :=
  match e with
  | EAddDoc _ _ | EUpdateDoc _ _ | EDeleteDoc _ => true
  | _ => false
  end.

(** Requests sent to the backend at all (mutations, subscriptions and
    sign-in); what is left is local: the console and the DOM event. *)
Definition is_request (e : Effect) : bool :=
  match e with
  | EPreventDefault | EConsoleError _ _ => false
  | _ => true
  end.


Definition is_create (e : Effect) : bool :=
  match e with
  | EAddDoc _ _ => true
  | _ => false
  end.

(** The backend answers an awaited call by fulfilling it ([None]) or by
    rejecting it with a reason. *)
Abbreviation Backend := (Effect -> option Error) (only parsing).

(** State of the component together with the effects so far, oldest first. *)
Record World : Type :=
  { w_state : AppState;
    w_trace : list Effect }.

(** Computations of a handler: they read the backend's answers, thread the
    world and complete normally or abruptly. *)
Definition M (A : Type) : Type :=
  (Effect -> option Error) -> World -> Completion A * World.

Definition ret {A} (a : A) : M A := fun _ w => (Normal a, w).

Definition bind {A B} (m : M A) (k : A -> M B) : M B :=
  fun be w =>
    match m be w with
    | (Normal a, w') => k a be w'
    | (Throw e, w') => (Throw e, w')
    end.

(** [try { body } catch (e) { handler e }]. *)
Definition try_catch {A} (body : M A) (handler : Error -> M A) : M A :=
  fun be w =>
    match body be w with
    | (Normal a, w') => (Normal a, w')
    | (Throw e, w') => handler e be w'
    end.

Declare Scope js_scope.
Delimit Scope js_scope with js.
Notation "x <- m ;; k" := (bind m (fun x => k))
  (at level 100, m at next level, right associativity) : js_scope.
Notation "m ;; k" := (bind m (fun _ => k))
  (at level 100, right associativity) : js_scope.
Open Scope js_scope.

(** The state the running closure was created with. *)
Definition get_state : M AppState := fun _ w => (Normal (w_state w), w).

Definition modify (f : AppState -> AppState) : M unit :=
  fun _ w => (Normal tt, {| w_state := f (w_state w); w_trace := w_trace w |}).

(** A call that cannot fail. *)
Definition emit (e : Effect) : M unit :=
  fun _ w => (Normal tt, {| w_state := w_state w; w_trace := w_trace w ++ [e] |}).

(** [await call]: the call is made, then its promise settles. *)
Definition await (e : Effect) : M unit :=
  fun be w =>
    let w' := {| w_state := w_state w; w_trace := w_trace w ++ [e] |} in
    match be e with
    | None => (Normal tt, w')
    | Some err => (Throw err, w')
    end.

Definition console_error (msg : string) (e : Error) : M unit :=
  emit (EConsoleError msg e).

(** A call into the SDK that returns at once or throws. *)
Definition lift {A} (c : Completion A) : M A := fun _ w => (c, w).

(** The state setters. *)
Definition setTodos (v : list (gmap (list N) Value)) : M unit :=
  modify (fun s => {| todos := v; newTodo := newTodo s; loading := loading s;
                      userId := userId s; authReady := authReady s |}).

Definition setNewTodo (v : list N) : M unit :=
  modify (fun s => {| todos := todos s; newTodo := v; loading := loading s;
                      userId := userId s; authReady := authReady s |}).

Definition setLoading (v : bool) : M unit :=
  modify (fun s => {| todos := todos s; newTodo := newTodo s; loading := v;
                      userId := userId s; authReady := authReady s |}).

Definition setUserId (v : option (list N)) : M unit :=
  modify (fun s => {| todos := todos s; newTodo := newTodo s; loading := loading s;
                      userId := v; authReady := authReady s |}).

Definition setAuthReady (v : bool) : M unit :=
  modify (fun s => {| todos := todos s; newTodo := newTodo s; loading := loading s;
                      userId := userId s; authReady := v |}).

(** Truthiness of a cell that holds [null] or a string. *)
Definition truthy_opt (v : option (list N)) : bool :=
  match v with
  | None => false
  | Some s => JsString.truthy s
  end.

(** Running a handler on a state, from an empty trace. *)
Definition run {A} (m : M A) (be : Effect -> option Error) (s : AppState)
  : Completion A * World :=
  m be {| w_state := s; w_trace := [] |}.

Definition result_of {A} (r : Completion A * World) : Completion A := fst r.
Definition state_of {A} (r : Completion A * World) : AppState := w_state (snd r).
Definition trace_of {A} (r : Completion A * World) : list Effect := w_trace (snd r).

(** ** The module-level constants *)

(** The globals the page may define before the script runs. *)
Record Globals : Type :=
  { __app_id : option (list N);
    __initial_auth_token : option (list N) }.

Definition appId (g : Globals) : list N :=
  match __app_id g with
  | Some a => a
  | None => lit "default-app-id"
  end.

Definition initialAuthToken (g : Globals) : option (list N) :=
  __initial_auth_token g.

(** The string held by the [userId] cell.  Every use below is behind a
    truthiness test of the cell, so [null] never reaches a path. *)
Definition path_segment (v : option (list N)) : list N :=
  match v with
  | Some u => u
  | None => []
  end.

(** ** The component *)

Section App.

Variable g : Globals.

(** The arguments [collection(db, 'artifacts', appId, 'users', userId, 'todos')]
    is called with. *)
Definition todos_segments (u : list N) : list Value :=
  [VStr (lit "artifacts"); VStr (appId g); VStr (lit "users"); VStr u;
   VStr (lit "todos")].

(** *** 2.1 The callback given to [onAuthStateChanged] *)
Definition onAuthStateChanged_callback (user : option User) : M unit :=
  match user with
  | Some u =>
      setUserId (Some (uid u)) ;;
      setAuthReady true
  | None =>
      try_catch
        (if truthy_opt (initialAuthToken g)
         then await (ESignInWithCustomToken (path_segment (initialAuthToken g)))
         else await ESignInAnonymously)
        (fun e =>
           console_error "Error signing in:" e ;;
           setAuthReady true)
  end.

(** *** 2.2 The data fetching effect and the two [onSnapshot] callbacks *)
Definition dataFetchingEffect : M unit :=
  s <- get_state ;;
  if negb (authReady s) || negb (truthy_opt (userId s)) then ret tt
  else
    todosCollection <- lift (collection (todos_segments (path_segment (userId s)))) ;;
    emit (EOnSnapshot todosCollection).

(** [{ id: doc.id, ...doc.data() }] *)
Definition todo_of_doc (d : QueryDocumentSnapshot) : gmap (list N) Value :=
  object_spread {[ lit "id" := VStr (qd_id d) ]} (qd_data d).

(** [querySnapshot.forEach(doc => todosData.push(...))] from [[]]. *)
Definition collect_todos (querySnapshot : list QueryDocumentSnapshot)
  : list (gmap (list N) Value) :=
  fold_left (fun todosData d => todosData ++ [todo_of_doc d]) querySnapshot [].

Definition onSnapshot_next (querySnapshot : list QueryDocumentSnapshot) : M unit :=
  let todosData := collect_todos querySnapshot in
  setTodos todosData ;;
  setLoading false.

Definition onSnapshot_error (error : Error) : M unit :=
  console_error "Error listening for todos:" error ;;
  setLoading false.

(** *** 2.3 Create *)
Definition handleAddTodo : M unit :=
  emit EPreventDefault ;;
  s <- get_state ;;
  let text := JsString.trim (newTodo s) in
  if JsString.truthy text && truthy_opt (userId s) then
    try_catch
      (todosCollection <- lift (collection (todos_segments (path_segment (userId s)))) ;;
       await (EAddDoc todosCollection
                      {[ lit "text" := VStr text;
                         lit "completed" := VBool false ]}) ;;
       setNewTodo [])
      (fun e => console_error "Error adding document: " e)
  else ret tt.

(** *** 2.4 Update

    [doc(...)] is called before the [try]: what it throws leaves the
    handler. *)
Definition handleToggleTodo (id currentCompleted : Value) : M unit :=
  s <- get_state ;;
  if negb (truthy_opt (userId s)) then ret tt
  else
    docRef <- lift (doc (todos_segments (path_segment (userId s)) ++ [id])) ;;
    try_catch
      (await (EUpdateDoc docRef {[ lit "completed" := VBool (js_not currentCompleted) ]}))
      (fun e => console_error "Error updating document: " e).

(** *** 2.5 Delete *)
Definition handleDeleteTodo (id : Value) : M unit :=
  s <- get_state ;;
  if negb (truthy_opt (userId s)) then ret tt
  else
    docRef <- lift (doc (todos_segments (path_segment (userId s)) ++ [id])) ;;
    try_catch
      (await (EDeleteDoc docRef))
      (fun e => console_error "Error deleting document: " e).

(** The input's [onChange]. *)
Definition handleChange (value : list N) : M unit :=
  setNewTodo value.

End App.

(** The three mutation operations, by name. *)
Inductive Mutation : Type :=
  | Add
  | Toggle (id currentCompleted : Value)
  | Delete (id : Value).

Definition mutate (g : Globals) (op : Mutation) : M unit :=
  match op with
  | Add => handleAddTodo g
  | Toggle id cur => handleToggleTodo g id cur
  | Delete id => handleDeleteTodo g id
  end.

(** An identity is present when the [userId] cell holds a non-empty string. *)
Definition identity_present (s : AppState) : Prop :=
  exists u, userId s = Some u /\ u <> [].

Definition identity_absent (s : AppState) : Prop :=
  userId s = None \/ userId s = Some [].





(** The one sign-in call the identity callback makes for a missing user:
    with the supplied token when there is one, anonymous otherwise. *)
Definition sign_in_request (g : Globals) : Effect :=
  if truthy_opt (initialAuthToken g)
  then ESignInWithCustomToken (path_segment (initialAuthToken g))
  else ESignInAnonymously.

(** ** The item component and the rendered page *)

(** Reading a property: [undefined] when the object has none of that name. *)
Definition get_prop (o : gmap (list N) Value) (k : list N) : Value :=
  default VUndefined (o !! k).

Module TodoItem.

(** [TodoItem({ todo, onToggle, onDelete })]: the two click handlers and the
    class of the text. *)
Definition handleToggle {X} (onToggle : Value -> Value -> X)
    (todo : gmap (list N) Value) : X :=
  onToggle (get_prop todo (lit "id")) (get_prop todo (lit "completed")).

Definition handleDelete {X} (onDelete : Value -> X) (todo : gmap (list N) Value) : X :=
  onDelete (get_prop todo (lit "id")).

Definition textClasses (todo : gmap (list N) Value) : list N :=
  lit "flex-1 " ++
  (if to_boolean (get_prop todo (lit "completed"))
   then lit "line-through text-gray-400"
   else lit "").

End TodoItem.

(** What one [<TodoItem key={todo.id} todo={todo} .../>] shows. *)
Record ItemView : Type :=
  { iv_key : Value;
    iv_checked : Value;
    iv_text : Value;
    iv_classes : list N }.

Definition item_view (todo : gmap (list N) Value) : ItemView :=
  {| iv_key := get_prop todo (lit "id");
     iv_checked := get_prop todo (lit "completed");
     iv_text := get_prop todo (lit "text");
     iv_classes := TodoItem.textClasses todo |}.

(** What the page shows: the identity line, the input, the two messages and
    the list. *)
Record View : Type :=
  { v_user : list N;
    v_input : list N;
    v_loading_message : bool;
    v_empty_message : bool;
    v_items : list ItemView }.

Definition render (s : AppState) : View :=
  {| v_user := if truthy_opt (userId s) then path_segment (userId s)
               else lit "Connecting...";
     v_input := newTodo s;
     v_loading_message := loading s;
     v_empty_message := negb (loading s) && Nat.eqb (length (todos s)) 0;
     v_items := map item_view (todos s) |}.

(** The message each mutation logs when its request is rejected. *)
Definition failure_message (op : Mutation) : string :=
  match op with
  | Add => "Error adding document: "
  | Toggle _ _ => "Error updating document: "
  | Delete _ => "Error deleting document: "
  end.

(** ** Handlers step by step

    An [async] handler runs up to its awaited call and goes on only when the
    call settles; other events are handled in between.  [Prog] is a handler
    cut at those points: what it does next and how it continues. *)

Inductive Prog (A : Type) : Type :=
  | PRet (c : Completion A)
  | PGet (k : AppState -> Prog A)
  | PModify (f : AppState -> AppState) (k : Prog A)
  | PEmit (e : Effect) (k : Prog A)
  | PAwait (e : Effect) (k : option Error -> Prog A).
Arguments PRet {A} c.
Arguments PGet {A} k.
Arguments PModify {A} f k.
Arguments PEmit {A} e k.
Arguments PAwait {A} e k.

(** Running a cut handler in one go, every awaited call answered at once by
    the backend. *)
Fixpoint atomically {A} (p : Prog A) : M A :=
  fun be w =>
    match p with
    | PRet c => (c, w)
    | PGet k => atomically (k (w_state w)) be w
    | PModify f k =>
        atomically k be {| w_state := f (w_state w); w_trace := w_trace w |}
    | PEmit e k =>
        atomically k be {| w_state := w_state w; w_trace := w_trace w ++ [e] |}
    | PAwait e k =>
        atomically (k (be e)) be {| w_state := w_state w; w_trace := w_trace w ++ [e] |}
    end.

Declare Scope prog_scope.
Delimit Scope prog_scope with prog.

Module Async.

Definition ret {A} (a : A) : Prog A := PRet (Normal a).

Fixpoint bind {A B} (p : Prog A) (k : A -> Prog B) : Prog B :=
  match p with
  | PRet (Normal a) => k a
  | PRet (Throw e) => PRet (Throw e)
  | PGet h => PGet (fun s => bind (h s) k)
  | PModify f p' => PModify f (bind p' k)
  | PEmit e p' => PEmit e (bind p' k)
  | PAwait e h => PAwait e (fun r => bind (h r) k)
  end.

Fixpoint try_catch {A} (body : Prog A) (handler : Error -> Prog A) : Prog A :=
  match body with
  | PRet (Normal a) => PRet (Normal a)
  | PRet (Throw e) => handler e
  | PGet h => PGet (fun s => try_catch (h s) handler)
  | PModify f p' => PModify f (try_catch p' handler)
  | PEmit e p' => PEmit e (try_catch p' handler)
  | PAwait e h => PAwait e (fun r => try_catch (h r) handler)
  end.

Notation "x <- m ;; k" := (bind m (fun x => k))
  (at level 100, m at next level, right associativity) : prog_scope.
Notation "m ;; k" := (bind m (fun _ => k))
  (at level 100, right associativity) : prog_scope.
Local Open Scope prog_scope.

Definition get_state : Prog AppState := PGet (fun s => PRet (Normal s)).

Definition modify (f : AppState -> AppState) : Prog unit := PModify f (PRet (Normal tt)).

Definition emit (e : Effect) : Prog unit := PEmit e (PRet (Normal tt)).

Definition await (e : Effect) : Prog unit :=
  PAwait e (fun r =>
    match r with
    | None => PRet (Normal tt)
    | Some err => PRet (Throw err)
    end).

Definition console_error (msg : string) (e : Error) : Prog unit :=
  emit (EConsoleError msg e).

Definition lift {A} (c : Completion A) : Prog A := PRet c.

Definition setTodos (v : list (gmap (list N) Value)) : Prog unit :=
  modify (fun s => {| todos := v; newTodo := newTodo s; loading := loading s;
                      userId := userId s; authReady := authReady s |}).

Definition setNewTodo (v : list N) : Prog unit :=
  modify (fun s => {| todos := todos s; newTodo := v; loading := loading s;
                      userId := userId s; authReady := authReady s |}).

Definition setLoading (v : bool) : Prog unit :=
  modify (fun s => {| todos := todos s; newTodo := newTodo s; loading := v;
                      userId := userId s; authReady := authReady s |}).

Definition setUserId (v : option (list N)) : Prog unit :=
  modify (fun s => {| todos := todos s; newTodo := newTodo s; loading := loading s;
                      userId := v; authReady := authReady s |}).

Definition setAuthReady (v : bool) : Prog unit :=
  modify (fun s => {| todos := todos s; newTodo := newTodo s; loading := loading s;
                      userId := userId s; authReady := v |}).

Section App.

Variable g : Globals.

Definition onAuthStateChanged_callback (user : option User) : Prog unit :=
  match user with
  | Some u =>
      setUserId (Some (uid u)) ;;
      setAuthReady true
  | None =>
      try_catch
        (if truthy_opt (initialAuthToken g)
         then await (ESignInWithCustomToken (path_segment (initialAuthToken g)))
         else await ESignInAnonymously)
        (fun e =>
           console_error "Error signing in:" e ;;
           setAuthReady true)
  end.

Definition dataFetchingEffect : Prog unit :=
  s <- get_state ;;
  if negb (authReady s) || negb (truthy_opt (userId s)) then ret tt
  else
    todosCollection <- lift (collection (todos_segments g (path_segment (userId s)))) ;;
    emit (EOnSnapshot todosCollection).

Definition onSnapshot_next (querySnapshot : list QueryDocumentSnapshot) : Prog unit :=
  let todosData := collect_todos querySnapshot in
  setTodos todosData ;;
  setLoading false.

Definition onSnapshot_error (error : Error) : Prog unit :=
  console_error "Error listening for todos:" error ;;
  setLoading false.

Definition handleAddTodo : Prog unit :=
  emit EPreventDefault ;;
  s <- get_state ;;
  let text := JsString.trim (newTodo s) in
  if JsString.truthy text && truthy_opt (userId s) then
    try_catch
      (todosCollection <- lift (collection (todos_segments g (path_segment (userId s)))) ;;
       await (EAddDoc todosCollection
                      {[ lit "text" := VStr text;
                         lit "completed" := VBool false ]}) ;;
       setNewTodo [])
      (fun e => console_error "Error adding document: " e)
  else ret tt.

Definition handleToggleTodo (id currentCompleted : Value) : Prog unit :=
  s <- get_state ;;
  if negb (truthy_opt (userId s)) then ret tt
  else
    docRef <- lift (doc (todos_segments g (path_segment (userId s)) ++ [id])) ;;
    try_catch
      (await (EUpdateDoc docRef {[ lit "completed" := VBool (js_not currentCompleted) ]}))
      (fun e => console_error "Error updating document: " e).

Definition handleDeleteTodo (id : Value) : Prog unit :=
  s <- get_state ;;
  if negb (truthy_opt (userId s)) then ret tt
  else
    docRef <- lift (doc (todos_segments g (path_segment (userId s)) ++ [id])) ;;
    try_catch
      (await (EDeleteDoc docRef))
      (fun e => console_error "Error deleting document: " e).

Definition handleChange (value : list N) : Prog unit :=
  setNewTodo value.

End App.

End Async.

(** ** The mounted component

    The component between events: its state, the snapshot listener the data
    effect holds open, the awaited calls that have not settled yet (each
    with what the handler does once it settles), everything done to the
    outside so far, the listeners the effect's cleanup has unsubscribed, and
    the subscribe and unsubscribe calls in the order they were made. *)

Inductive Life : Type :=
  | Opened (c : CollectionReference)
  | Closed (c : CollectionReference).

Record Machine : Type :=
  { m_app : AppState;
    m_listener : option CollectionReference;
    m_pending : list (Effect * (option Error -> Prog unit));
    m_log : list Effect;
    m_closed : list CollectionReference;
    m_life : list Life }.

(** A handler runs until it returns, throws or suspends at an awaited call.
    What an [async] handler throws rejects its promise, which nobody
    observes. *)
Fixpoint exec (p : Prog unit) (m : Machine) : Machine :=
  match p with
  | PRet _ => m
  | PGet k => exec (k (m_app m)) m
  | PModify f k =>
      exec k {| m_app := f (m_app m); m_listener := m_listener m;
                m_pending := m_pending m; m_log := m_log m; m_closed := m_closed m;
                m_life := m_life m |}
  | PEmit e k =>
      exec k {| m_app := m_app m; m_listener := m_listener m;
                m_pending := m_pending m; m_log := m_log m ++ [e];
                m_closed := m_closed m; m_life := m_life m |}
  | PAwait e k =>
      {| m_app := m_app m; m_listener := m_listener m;
         m_pending := m_pending m ++ [(e, k)]; m_log := m_log m ++ [e];
         m_closed := m_closed m; m_life := m_life m |}
  end.

Definition subscribed (e : Effect) : option CollectionReference :=
  match e with
  | EOnSnapshot c => Some c
  | _ => None
  end.

(** The dependency array [[authReady, userId]] of the data effect. *)
Definition deps (s : AppState) : bool * option (list N) := (authReady s, userId s).

(** The cleanup the data effect returned: [unsubscribe()], when the effect
    got as far as subscribing. *)
Definition cleanup (m : Machine) : Machine :=
  match m_listener m with
  | Some c =>
      {| m_app := m_app m; m_listener := None; m_pending := m_pending m;
         m_log := m_log m; m_closed := m_closed m ++ [c];
         m_life := m_life m ++ [Closed c] |}
  | None => m
  end.

(** The data effect runs; the listener it opens, if any, is now the one
    held.  Nothing in the component catches what the effect throws: the
    component does not survive it, and the run ends there. *)
Definition run_data_effect (g : Globals) (m : Machine) : option Machine :=
  match run (dataFetchingEffect g) (fun _ => None) (m_app m) with
  | (Normal _, w) =>
      Some {| m_app := m_app m;
              m_listener := last (omap subscribed (w_trace w));
              m_pending := m_pending m;
              m_log := m_log m ++ w_trace w;
              m_closed := m_closed m;
              m_life := m_life m ++ (Opened <$> omap subscribed (w_trace w)) |}
  | (Throw _, _) => None
  end.

(** After the render that follows an event: when a dependency changed, the
    previous cleanup runs and then the effect again. *)
Definition commit (g : Globals) (before : AppState) (m : Machine) : option Machine :=
  if decide (deps (m_app m) = deps before) then Some m
  else run_data_effect g (cleanup m).

(** After the first render and its effects: the data effect has returned at
    its guard. *)
Definition mount (g : Globals) : Machine :=
  {| m_app := initial_state; m_listener := None; m_pending := [];
     m_log := []; m_closed := []; m_life := [] |}.

(** What can happen to a mounted component. *)
Inductive Event : Type :=
  | AuthStateChanged (user : option User)
  | SnapshotNext (querySnapshot : list QueryDocumentSnapshot)
  | SnapshotError (error : Error)
  | InputChange (value : list N)
  | Submit
  | ClickCheckbox (i : nat)
  | ClickDelete (i : nat)
  | Settled (i : nat) (outcome : option Error).

(** The code an event runs, if the event can happen: snapshot callbacks
    need an open listener, a click needs the item it is on, a settlement
    needs the pending call it settles. *)
Definition program_of (g : Globals) (m : Machine) (ev : Event)
  : option (Prog unit * Machine) :=
  match ev with
  | AuthStateChanged user => Some (Async.onAuthStateChanged_callback g user, m)
  | SnapshotNext qs =>
      match m_listener m with
      | Some _ => Some (Async.onSnapshot_next qs, m)
      | None => None
      end
  | SnapshotError error =>
      match m_listener m with
      | Some _ => Some (Async.onSnapshot_error error, m)
      | None => None
      end
  | InputChange value => Some (Async.handleChange value, m)
  | Submit => Some (Async.handleAddTodo g, m)
  | ClickCheckbox i =>
      match todos (m_app m) !! i with
      | Some todo => Some (TodoItem.handleToggle (Async.handleToggleTodo g) todo, m)
      | None => None
      end
  | ClickDelete i =>
      match todos (m_app m) !! i with
      | Some todo => Some (TodoItem.handleDelete (Async.handleDeleteTodo g) todo, m)
      | None => None
      end
  | Settled i outcome =>
      match m_pending m !! i with
      | Some (_, k) =>
          Some (k outcome,
                {| m_app := m_app m; m_listener := m_listener m;
                   m_pending := delete i (m_pending m); m_log := m_log m;
                   m_closed := m_closed m; m_life := m_life m |})
      | None => None
      end
  end.

Definition step (g : Globals) (m : Machine) (ev : Event) : option Machine :=
  match program_of g m ev with
  | Some (p, m') => commit g (m_app m) (exec p m')
  | None => None
  end.

Fixpoint steps (g : Globals) (m : Machine) (evs : list Event) : option Machine :=
  match evs with
  | [] => Some m
  | ev :: evs' =>
      match step g m ev with
      | Some m' => steps g m' evs'
      | None => None
      end
  end.

(** The listener that goes with a state: the identity's collection when the
    session is ready and has an identity. *)
Definition listener_for (g : Globals) (s : AppState) : option CollectionReference :=
  if authReady s && truthy_opt (userId s)
  then match collection (todos_segments g (path_segment (userId s))) with
       | Normal c => Some c
       | Throw _ => None
       end
  else None.

(** The listeners open after a sequence of subscribe and unsubscribe calls:
    a subscribe adds one, an unsubscribe takes that one away. *)
Fixpoint remove_first (c : CollectionReference) (l : list CollectionReference)
  : list CollectionReference :=
  match l with
  | [] => []
  | x :: r => if decide (x = c) then r else x :: remove_first c r
  end.

Definition open_listeners (life : list Life) : list CollectionReference :=
  fold_left (fun open ev =>
               match ev with
               | Opened c => open ++ [c]
               | Closed c => remove_first c open
               end) life [].

(** A day in the life: sign-in, first snapshot, typing, adding, a click. *)
Definition sample_events : list Event :=
  [ AuthStateChanged None;
    Settled 0 None;
    AuthStateChanged (Some {| uid := lit "u1" |});
    SnapshotNext [{| qd_id := lit "x1";
                     qd_data := {[ lit "text" := VStr (lit "buy milk");
                                   lit "completed" := VBool false ]} |}];
    InputChange (lit " walk dog");
    Submit;
    ClickCheckbox 0;
    Settled 1 (Some (MkError "unavailable"));
    Settled 0 None ].

(** One identity, its first snapshot, then another identity. *)
Definition identity_switch : list Event :=
  [ AuthStateChanged (Some {| uid := lit "u1" |});
    SnapshotNext [{| qd_id := lit "x1";
                     qd_data := {[ lit "text" := VStr (lit "buy milk");
                                   lit "completed" := VBool false ]} |}];
    AuthStateChanged (Some {| uid := lit "u2" |}) ].

(** ** What a handler may do to the mounted component *)

(** [m'] is [m] with the state replaced, [out] appended to the log and [new]
    to the pending calls; listeners untouched. *)
Definition extends (m m' : Machine) (s' : AppState) (out : list Effect)
    (new : list (Effect * (option Error -> Prog unit))) : Prop :=
  m_app m' = s'
  /\ m_listener m' = m_listener m
  /\ m_pending m' = m_pending m ++ new
  /\ m_log m' = m_log m ++ out
  /\ m_closed m' = m_closed m
  /\ m_life m' = m_life m.

(** The writes the handlers make: the identity is kept or set together with
    readiness, readiness is kept or raised; mirror and loading flag are
    kept, or (for the snapshot callbacks only) loading is over. *)
Definition write (snapshot : bool) (s s' : AppState) : Prop :=
  ((userId s' = userId s /\ (authReady s' = authReady s \/ authReady s' = true))
   \/ (userId s' <> None /\ authReady s' = true))
  /\ ((todos s' = todos s /\ loading s' = loading s)
      \/ (snapshot = true /\ loading s' = false)).

(** A continuation that only writes and logs: no call, no subscription, no
    further suspension, mirror untouched. *)
Definition quiet (p : Prog unit) : Prop :=
  forall m, exists s' out,
    extends m (exec p m) s' out []
    /\ write false (m_app m) s'
    /\ omap subscribed out = [].

Definition behaves (snapshot : bool) (p : Prog unit) : Prop :=
  forall m, exists s' out new,
    extends m (exec p m) s' out new
    /\ write snapshot (m_app m) s'
    /\ omap subscribed out = []
    /\ Forall (fun ek => forall r, quiet (snd ek r)) new.

(** What holds of the mounted component between any two events. *)
Definition Inv (g : Globals) (m : Machine) : Prop :=
  (userId (m_app m) <> None -> authReady (m_app m) = true)
  /\ (loading (m_app m) = true -> todos (m_app m) = [])
  /\ m_listener m = listener_for g (m_app m)
  /\ (authReady (m_app m) && truthy_opt (userId (m_app m)) = true ->
      exists c, collection (todos_segments g (path_segment (userId (m_app m)))) = Normal c)
  /\ omap subscribed (m_log m) = m_closed m ++ option_list (m_listener m)
  /\ (omap subscribed (m_log m) = [] -> loading (m_app m) = true)
  /\ Forall (fun ek => forall r, quiet (snd ek r)) (m_pending m)
  /\ m_life m
     = (m_closed m ≫= fun c => [Opened c; Closed c])
       ++ (Opened <$> option_list (m_listener m)).

(** ** Sample data *)

Definition plain_globals : Globals :=
  {| __app_id := None; __initial_auth_token := None |}.

Definition token_globals : Globals :=
  {| __app_id := Some (lit "demo"); __initial_auth_token := Some (lit "tok") |}.

(** A page that defines [__app_id] as the empty string. *)
Definition blank_app_globals : Globals :=
  {| __app_id := Some (lit ""); __initial_auth_token := None |}.

Definition milk : gmap (list N) Value :=
  {[ lit "id" := VStr (lit "x1");
     lit "text" := VStr (lit "buy milk");
     lit "completed" := VBool false ]}.

(** A signed-in session showing one item, with text typed into the input. *)
Definition signed_in : AppState :=
  {| todos := [milk];
     newTodo := lit "  walk dog ";
     loading := false;
     userId := Some (lit "u1");
     authReady := true |}.

(** The same session with only blanks in the input. *)
Definition signed_in_blank : AppState :=
  {| todos := [milk];
     newTodo := lit "   ";
     loading := false;
     userId := Some (lit "u1");
     authReady := true |}.

(** A session without identity, with text typed into the input. *)
Definition signed_out : AppState :=
  {| todos := [];
     newTodo := lit "walk dog";
     loading := true;
     userId := None;
     authReady := false |}.

Definition accept_all : Effect -> option Error := fun _ => None.
Definition reject_all : Effect -> option Error := fun _ => Some (MkError "unavailable").

(** The collection of identity [u1] under the default application id, and
    two documents in it. *)
Definition u1_todos : CollectionReference :=
  {| c_path := [lit "artifacts"; lit "default-app-id"; lit "users"; lit "u1"; lit "todos"] |}.

Definition u1_doc (id : list N) : DocumentReference :=
  {| d_path := [lit "artifacts"; lit "default-app-id"; lit "users"; lit "u1"; lit "todos";
                id] |}.

(** A delivered document as the application writes it, and one that carries
    a field named [id] of its own. *)
Definition milk_doc : QueryDocumentSnapshot :=
  {| qd_id := lit "x1";
     qd_data := {[ lit "text" := VStr (lit "buy milk");
                   lit "completed" := VBool false ]} |}.

Definition eggs_doc : QueryDocumentSnapshot :=
  {| qd_id := lit "x2";
     qd_data := {[ lit "text" := VStr (lit "buy eggs");
                   lit "completed" := VBool true ]} |}.

Definition foreign_doc : QueryDocumentSnapshot :=
  {| qd_id := lit "x3";
     qd_data := {[ lit "id" := VStr (lit "zz");
                   lit "text" := VStr (lit "imported") ]} |}.

(** The signed-in session with the same text typed without the blanks. *)
Definition signed_in_clean : AppState :=
  {| todos := [milk];
     newTodo := lit "walk dog";
     loading := false;
     userId := Some (lit "u1");
     authReady := true |}.

(** The signed-in session, mounted, with its listener open. *)
Definition signed_in_machine : Machine :=
  {| m_app := signed_in;
     m_listener := Some u1_todos;
     m_pending := [];
     m_log := [EOnSnapshot u1_todos];
     m_closed := [];
     m_life := [Opened u1_todos] |}.

(** A sign-in that fails, and nothing after it. *)
Definition failed_sign_in : list Event :=
  [ AuthStateChanged None; Settled 0 (Some (MkError "unavailable")) ].

(** Where the sample runs end. *)
Definition sample_final : Machine :=
  Eval vm_compute in
    match steps plain_globals (mount plain_globals) sample_events with
    | Some m => m
    | None => mount plain_globals
    end.

Definition failed_final : Machine :=
  Eval vm_compute in
    match steps plain_globals (mount plain_globals) failed_sign_in with
    | Some m => m
    | None => mount plain_globals
    end.

Definition switch_final : Machine :=
  Eval vm_compute in
    match steps plain_globals (mount plain_globals) identity_switch with
    | Some m => m
    | None => mount plain_globals
    end.

(** ** Module initialisation *)

(** The calls made while the module loads, in the order of the source:
    [JSON.parse] on line 22, then the four calls of the [try] block. *)
Inductive InitCall : Type :=
  | CJsonParse
  | CInitializeApp
  | CGetFirestore
  | CGetAuth
  | CSetLogLevel.

#[global] Instance InitCall_eq_dec : EqDecision InitCall.
Proof. solve_decision. Defined.

Definition init_order : list InitCall :=
  [CJsonParse; CInitializeApp; CGetFirestore; CGetAuth; CSetLogLevel].

(** Which of [app], [db] and [auth] have been assigned. *)
Record Handles : Type :=
  { h_app : bool;
    h_db : bool;
    h_auth : bool }.

(** How loading the module ends, the calls it made and what it logged. *)
Record Loaded : Type :=
  { l_result : Completion Handles;
    l_calls : list InitCall;
    l_log : list Effect }.

(** [const firebaseConfig = JSON.parse(...)] followed by
    [try { app = ...; db = ...; auth = ...; setLogLevel('Debug') }
     catch (e) { console.error("Error initializing Firebase:", e) }],
    given which calls throw. *)
Definition load_module (throws : InitCall -> option Error) : Loaded :=
  match throws CJsonParse with
  | Some e => {| l_result := Throw e; l_calls := [CJsonParse]; l_log := [] |}
  | None =>
      match throws CInitializeApp with
      | Some e =>
          {| l_result := Normal {| h_app := false; h_db := false; h_auth := false |};
             l_calls := [CJsonParse; CInitializeApp];
             l_log := [EConsoleError "Error initializing Firebase:" e] |}
      | None =>
          match throws CGetFirestore with
          | Some e =>
              {| l_result := Normal {| h_app := true; h_db := false; h_auth := false |};
                 l_calls := [CJsonParse; CInitializeApp; CGetFirestore];
                 l_log := [EConsoleError "Error initializing Firebase:" e] |}
          | None =>
              match throws CGetAuth with
              | Some e =>
                  {| l_result := Normal {| h_app := true; h_db := true; h_auth := false |};
                     l_calls := [CJsonParse; CInitializeApp; CGetFirestore; CGetAuth];
                     l_log := [EConsoleError "Error initializing Firebase:" e] |}
              | None =>
                  match throws CSetLogLevel with
                  | Some e =>
                      {| l_result := Normal {| h_app := true; h_db := true; h_auth := true |};
                         l_calls := init_order;
                         l_log := [EConsoleError "Error initializing Firebase:" e] |}
                  | None =>
                      {| l_result := Normal {| h_app := true; h_db := true; h_auth := true |};
                         l_calls := init_order;
                         l_log := [] |}
                  end
              end
          end
      end
  end.

(** * Properties *)

(** ** [trim] *)

Module JsStringFacts.
Import JsString.

Lemma trimStart_prefix (s : list N) :
  exists pre, s = pre ++ trimStart s /\ forallb is_trimmable pre = true.
Proof.
  induction s as [|c r IH]; simpl.
  - exists []. split; reflexivity.
  - destruct (is_trimmable c) eqn:Hc.
    + destruct IH as (pre & Hr & Hpre).
      exists (c :: pre). simpl. rewrite Hc, Hpre. split; [congruence | reflexivity].
    + exists []. split; reflexivity.
Qed.

Lemma trimStart_head (s : list N) (c : N) (r : list N) :
  trimStart s = c :: r -> is_trimmable c = false.
Proof.
  induction s as [|a s' IH]; simpl; [discriminate|].
  destruct (is_trimmable a) eqn:Ha; [exact IH|].
  intros [= <- _]. exact Ha.
Qed.

Lemma trimStart_snoc (s : list N) (c : N) :
  is_trimmable c = false -> trimStart (s ++ [c]) = trimStart s ++ [c].
Proof.
  intros Hc. induction s as [|a s' IH]; simpl.
  - rewrite Hc. reflexivity.
  - destruct (is_trimmable a); [exact IH | reflexivity].
Qed.

Lemma trimStart_fixed (c : N) (r : list N) :
  is_trimmable c = false -> trimStart (c :: r) = c :: r.
Proof. intros Hc. simpl. rewrite Hc. reflexivity. Qed.

Lemma trimEnd_suffix (s : list N) :
  exists post, s = trimEnd s ++ post /\ forallb is_trimmable post = true.
Proof.
  unfold trimEnd.
  destruct (trimStart_prefix (rev s)) as (pre & Hs & Hpre).
  exists (rev pre). split.
  - rewrite <- rev_app_distr, <- Hs, rev_involutive. reflexivity.
  - rewrite forallb_forall in *. intros x Hx. apply Hpre, in_rev, Hx.
Qed.

Lemma trimEnd_keeps_head (c : N) (r : list N) :
  is_trimmable c = false -> exists r', trimEnd (c :: r) = c :: r'.
Proof.
  intros Hc. unfold trimEnd. simpl rev.
  rewrite (trimStart_snoc _ _ Hc), rev_app_distr. simpl. eauto.
Qed.

Lemma trimEnd_last (s r : list N) (c : N) :
  trimEnd s = r ++ [c] -> is_trimmable c = false.
Proof.
  unfold trimEnd. intros H.
  apply (f_equal (@rev N)) in H.
  rewrite rev_involutive, rev_app_distr in H. simpl in H.
  eapply trimStart_head, H.
Qed.

(** The trimmed string sits inside the input between two runs of
    strippable code units. *)
Lemma trim_decompose (s : list N) :
  exists pre post,
    s = pre ++ trim s ++ post
    /\ forallb is_trimmable pre = true
    /\ forallb is_trimmable post = true.
Proof.
  destruct (trimStart_prefix s) as (pre & Hs & Hpre).
  destruct (trimEnd_suffix (trimStart s)) as (post & Ht & Hpost).
  exists pre, post. unfold trim. rewrite <- Ht. auto.
Qed.

Lemma trim_first (s : list N) (c : N) :
  head (trim s) = Some c -> is_trimmable c = false.
Proof.
  unfold trim. destruct (trimStart s) as [|a r] eqn:Hs.
  - discriminate.
  - pose proof (trimStart_head _ _ _ Hs) as Ha.
    destruct (trimEnd_keeps_head a r Ha) as (r' & ->).
    simpl. congruence.
Qed.

Lemma trim_last (s : list N) (c : N) :
  last (trim s) = Some c -> is_trimmable c = false.
Proof.
  unfold trim. intros H.
  destruct (trimEnd (trimStart s)) as [|a t] eqn:Ht using rev_ind.
  - discriminate.
  - rewrite last_snoc in H. injection H as ->.
    eapply trimEnd_last, Ht.
Qed.

(** Trimming a string that is clean at both ends changes nothing. *)
Lemma trim_clean (s : list N) :
  (forall c, head s = Some c -> is_trimmable c = false) ->
  (forall c, last s = Some c -> is_trimmable c = false) ->
  trim s = s.
Proof.
  intros Hh Hl. unfold trim.
  destruct s as [|a r]; [reflexivity|].
  rewrite trimStart_fixed by (apply Hh; reflexivity).
  unfold trimEnd.
  destruct (rev (a :: r)) as [|b t] eqn:Hr.
  - apply (f_equal (@rev N)) in Hr. rewrite rev_involutive in Hr. discriminate.
  - rewrite trimStart_fixed; [rewrite <- Hr; apply rev_involutive|].
    apply Hl. apply (f_equal (@rev N)) in Hr. rewrite rev_involutive in Hr.
    rewrite Hr. simpl. apply last_snoc.
Qed.

Lemma trim_idempotent (s : list N) : trim (trim s) = trim s.
Proof. apply trim_clean; [apply trim_first | apply trim_last]. Qed.

Lemma truthy_nonempty (s : list N) : truthy s = true <-> s <> [].
Proof. destruct s; simpl; split; congruence. Qed.

End JsStringFacts.

(** ** Running the handlers *)

Ltac run_monad :=
  unfold run, result_of, state_of, trace_of, bind, ret, try_catch, get_state,
    modify, emit, await, console_error, lift, setTodos, setNewTodo, setLoading,
    setUserId, setAuthReady;
  cbn [fst snd w_state w_trace app todos newTodo loading userId authReady].

Lemma truthy_present (s : AppState) (u : list N) :
  userId s = Some u -> u <> [] ->
  truthy_opt (userId s) = true /\ path_segment (userId s) = u.
Proof. intros -> Hu. destruct u; [congruence | split; reflexivity]. Qed.

Lemma falsy_absent (s : AppState) :
  identity_absent s <-> truthy_opt (userId s) = false.
Proof.
  unfold identity_absent. destruct (userId s) as [[|c u]|]; simpl; split; intros H.
  - reflexivity.
  - right. reflexivity.
  - destruct H; discriminate.
  - discriminate.
  - reflexivity.
  - left. reflexivity.
Qed.

Lemma present_or_absent (s : AppState) :
  identity_present s \/ identity_absent s.
Proof.
  unfold identity_present, identity_absent.
  destruct (userId s) as [[|c u]|].
  - right. right. reflexivity.
  - left. exists (c :: u). split; [reflexivity | discriminate].
  - right. left. reflexivity.
Qed.

(** ** Paths *)

Section PathFacts.

Import ResourcePath.

Let no_slash (s : list N) : bool := forallb (fun c => negb (N.eqb c slash)) s.

Lemma split_no_slash (s : list N) : no_slash s = true -> split s = [s].
Proof.
  induction s as [|c s IH]; cbn; [reflexivity|].
  intros [Hc Hs]%andb_true_iff. apply negb_true_iff in Hc. rewrite Hc, (IH Hs). reflexivity.
Qed.

Lemma has_double_slash_no_slash (s : list N) : no_slash s = true -> has_double_slash s = false.
Proof.
  induction s as [|c s IH]; cbn; [reflexivity|].
  intros [Hc Hs]%andb_true_iff. apply negb_true_iff in Hc.
  destruct s as [|b s']; [reflexivity|]. rewrite Hc. cbn [andb orb]. apply IH, Hs.
Qed.

Lemma single_segment_spec (s : list N) :
  single_segment s = true -> pieces s = [s] /\ has_double_slash s = false.
Proof.
  unfold single_segment, pieces. intros [Ht Hs]%andb_true_iff.
  rewrite (split_no_slash s Hs). cbn. rewrite Ht.
  split; [reflexivity | apply has_double_slash_no_slash, Hs].
Qed.

(** One more argument that is a single segment adds that segment. *)
Lemma fromString_snoc (args : list Value) (id : list N) :
  single_segment id = true ->
  fromString (args ++ [VStr id])
  = match fromString args with
    | Normal segments => Normal (segments ++ [id])
    | Throw e => Throw e
    end.
Proof.
  intros [Hp Hd]%single_segment_spec.
  induction args as [|a args IH]; cbn [app fromString].
  - rewrite Hd, Hp. reflexivity.
  - destruct a; try reflexivity.
    destruct (has_double_slash s); [reflexivity|].
    rewrite IH. destruct (fromString args); [rewrite app_assoc|]; reflexivity.
Qed.

(** Arguments that are single segments are the path. *)
Lemma fromString_singles (l : list (list N)) :
  Forall (fun s => single_segment s = true) l -> fromString (VStr <$> l) = Normal l.
Proof.
  induction 1 as [|s l Hs _ IH]; cbn; [reflexivity|].
  destruct (single_segment_spec s Hs) as [Hp Hd]. rewrite Hd, IH, Hp. reflexivity.
Qed.

End PathFacts.

(** For an item id that is a single segment, [doc] accepts the arguments of
    [collection] followed by the id exactly when [collection] accepts those
    arguments, and the document then lies in that collection. *)
Lemma doc_in_collection (args : list Value) (id : list N) :
  single_segment id = true ->
  match collection args with
  | Normal c => doc (args ++ [VStr id]) = Normal {| d_path := c_path c ++ [id] |}
  | Throw _ => exists e, doc (args ++ [VStr id]) = Throw e
  end.
Proof.
  intros Hid. unfold collection, doc.
  destruct args as [|path rest]; cbn [app].
  - cbn. destruct (single_segment_spec id Hid) as [Hp Hd].
    unfold single_segment in Hid. apply andb_true_iff in Hid as [Ht _].
    rewrite Ht, Hd, Hp. cbn. eauto.
  - destruct (negb (to_boolean path)); [eauto|].
    change (path :: rest ++ [VStr id]) with ((path :: rest) ++ [VStr id]).
    rewrite (fromString_snoc _ _ Hid).
    destruct (ResourcePath.fromString (path :: rest)) as [segments|e]; [|eauto].
    rewrite length_app. cbn [length]. rewrite Nat.add_1_r, Nat.even_succ, <- Nat.negb_even.
    destruct (Nat.even (length segments)); cbn [negb]; eauto.
Qed.


Lemma literal_segments :
  single_segment (lit "artifacts") = true
  /\ single_segment (lit "users") = true
  /\ single_segment (lit "todos") = true.
Proof. repeat split. Qed.

(** With an application id and an identity that are single segments, the
    items collection is [artifacts/<appId>/users/<identity>/todos]. *)
Lemma collection_valid (g : Globals) (u : list N) :
  single_segment (appId g) = true -> single_segment u = true ->
  collection (todos_segments g u)
  = Normal {| c_path := [lit "artifacts"; appId g; lit "users"; u; lit "todos"] |}.
Proof.
  intros Ha Hu. unfold collection, todos_segments.
  change (negb (to_boolean (VStr (lit "artifacts")))) with false. cbv iota.
  change [VStr (lit "artifacts"); VStr (appId g); VStr (lit "users"); VStr u; VStr (lit "todos")]
    with (VStr <$> [lit "artifacts"; appId g; lit "users"; u; lit "todos"]).
  rewrite fromString_singles; [reflexivity|].
  repeat constructor; assumption.
Qed.

Lemma doc_valid (g : Globals) (u id : list N) :
  single_segment (appId g) = true -> single_segment u = true -> single_segment id = true ->
  doc (todos_segments g u ++ [VStr id])
  = Normal {| d_path := [lit "artifacts"; appId g; lit "users"; u; lit "todos"; id] |}.
Proof.
  intros Ha Hu Hid. pose proof (doc_in_collection (todos_segments g u) id Hid) as H.
  rewrite (collection_valid g u Ha Hu) in H. exact H.
Qed.

(** ** Running the handlers, case by case *)

Section Runs.

Variable g : Globals.
Variable be : Effect -> option Error.
Variable s : AppState.

(** The arguments the handlers build the items collection from. *)
Let items_args : list Value := todos_segments g (path_segment (userId s)).

(** The fields of a new item. *)
Let new_item : gmap (list N) Value :=
  {[ lit "text" := VStr (JsString.trim (newTodo s)); lit "completed" := VBool false ]}.

Lemma handleAddTodo_guarded :
  JsString.truthy (JsString.trim (newTodo s)) && truthy_opt (userId s) = false ->
  run (handleAddTodo g) be s
  = (Normal tt, {| w_state := s; w_trace := [EPreventDefault] |}).
Proof. intros H. unfold handleAddTodo. run_monad. rewrite H. reflexivity. Qed.

Lemma handleAddTodo_invalid (e : Error) :
  JsString.truthy (JsString.trim (newTodo s)) && truthy_opt (userId s) = true ->
  collection items_args = Throw e ->
  run (handleAddTodo g) be s
  = (Normal tt,
     {| w_state := s;
        w_trace := [EPreventDefault; EConsoleError "Error adding document: " e] |}).
Proof.
  intros H Hc. unfold handleAddTodo. run_monad. rewrite H.
  fold items_args. rewrite Hc. reflexivity.
Qed.

Lemma handleAddTodo_fulfilled (c : CollectionReference) :
  JsString.truthy (JsString.trim (newTodo s)) && truthy_opt (userId s) = true ->
  collection items_args = Normal c ->
  be (EAddDoc c new_item) = None ->
  run (handleAddTodo g) be s
  = (Normal tt,
     {| w_state := {| todos := todos s; newTodo := []; loading := loading s;
                      userId := userId s; authReady := authReady s |};
        w_trace := [EPreventDefault; EAddDoc c new_item] |}).
Proof.
  intros H Hc Hbe. unfold handleAddTodo. run_monad. rewrite H.
  fold items_args. rewrite Hc. cbn [w_state w_trace app]. fold new_item. rewrite Hbe.
  reflexivity.
Qed.

Lemma handleAddTodo_rejected (c : CollectionReference) (err : Error) :
  JsString.truthy (JsString.trim (newTodo s)) && truthy_opt (userId s) = true ->
  collection items_args = Normal c ->
  be (EAddDoc c new_item) = Some err ->
  run (handleAddTodo g) be s
  = (Normal tt,
     {| w_state := s;
        w_trace := [EPreventDefault; EAddDoc c new_item;
                    EConsoleError "Error adding document: " err] |}).
Proof.
  intros H Hc Hbe. unfold handleAddTodo. run_monad. rewrite H.
  fold items_args. rewrite Hc. cbn [w_state w_trace app]. fold new_item. rewrite Hbe.
  reflexivity.
Qed.

Lemma handleToggleTodo_absent (id cur : Value) :
  truthy_opt (userId s) = false ->
  run (handleToggleTodo g id cur) be s = (Normal tt, {| w_state := s; w_trace := [] |}).
Proof. intros H. unfold handleToggleTodo. run_monad. rewrite H. reflexivity. Qed.

Lemma handleToggleTodo_invalid (id cur : Value) (e : Error) :
  truthy_opt (userId s) = true ->
  doc (items_args ++ [id]) = Throw e ->
  run (handleToggleTodo g id cur) be s = (Throw e, {| w_state := s; w_trace := [] |}).
Proof.
  intros H Hd. unfold handleToggleTodo. run_monad. rewrite H. cbn [negb].
  fold items_args. rewrite Hd. reflexivity.
Qed.

Lemma handleToggleTodo_present (id cur : Value) (docRef : DocumentReference) :
  truthy_opt (userId s) = true ->
  doc (items_args ++ [id]) = Normal docRef ->
  let update := EUpdateDoc docRef {[ lit "completed" := VBool (js_not cur) ]} in
  run (handleToggleTodo g id cur) be s
  = (Normal tt,
     {| w_state := s;
        w_trace := update ::
          match be update with
          | None => []
          | Some err => [EConsoleError "Error updating document: " err]
          end |}).
Proof.
  intros H Hd update. unfold handleToggleTodo. run_monad. rewrite H. cbn [negb].
  fold items_args. rewrite Hd. cbn [w_state w_trace app].
  fold update. destruct (be update); reflexivity.
Qed.

Lemma handleDeleteTodo_absent (id : Value) :
  truthy_opt (userId s) = false ->
  run (handleDeleteTodo g id) be s = (Normal tt, {| w_state := s; w_trace := [] |}).
Proof. intros H. unfold handleDeleteTodo. run_monad. rewrite H. reflexivity. Qed.

Lemma handleDeleteTodo_invalid (id : Value) (e : Error) :
  truthy_opt (userId s) = true ->
  doc (items_args ++ [id]) = Throw e ->
  run (handleDeleteTodo g id) be s = (Throw e, {| w_state := s; w_trace := [] |}).
Proof.
  intros H Hd. unfold handleDeleteTodo. run_monad. rewrite H. cbn [negb].
  fold items_args. rewrite Hd. reflexivity.
Qed.

Lemma handleDeleteTodo_present (id : Value) (docRef : DocumentReference) :
  truthy_opt (userId s) = true ->
  doc (items_args ++ [id]) = Normal docRef ->
  let delete := EDeleteDoc docRef in
  run (handleDeleteTodo g id) be s
  = (Normal tt,
     {| w_state := s;
        w_trace := delete ::
          match be delete with
          | None => []
          | Some err => [EConsoleError "Error deleting document: " err]
          end |}).
Proof.
  intros H Hd delete. unfold handleDeleteTodo. run_monad. rewrite H. cbn [negb].
  fold items_args. rewrite Hd. cbn [w_state w_trace app].
  fold delete. destruct (be delete); reflexivity.
Qed.

Lemma dataFetchingEffect_idle :
  negb (authReady s) || negb (truthy_opt (userId s)) = true ->
  run (dataFetchingEffect g) be s = (Normal tt, {| w_state := s; w_trace := [] |}).
Proof. intros H. unfold dataFetchingEffect. run_monad. rewrite H. reflexivity. Qed.

Lemma dataFetchingEffect_throws (e : Error) :
  authReady s = true -> truthy_opt (userId s) = true ->
  collection items_args = Throw e ->
  run (dataFetchingEffect g) be s = (Throw e, {| w_state := s; w_trace := [] |}).
Proof.
  intros H1 H2 Hc. unfold dataFetchingEffect. run_monad. rewrite H1, H2. cbn [negb orb].
  fold items_args. rewrite Hc. reflexivity.
Qed.

Lemma dataFetchingEffect_subscribes (c : CollectionReference) :
  authReady s = true -> truthy_opt (userId s) = true ->
  collection items_args = Normal c ->
  run (dataFetchingEffect g) be s
  = (Normal tt, {| w_state := s; w_trace := [EOnSnapshot c] |}).
Proof.
  intros H1 H2 Hc. unfold dataFetchingEffect. run_monad. rewrite H1, H2. cbn [negb orb].
  fold items_args. rewrite Hc. reflexivity.
Qed.

Lemma collect_todos_map (qs : list QueryDocumentSnapshot) :
  collect_todos qs = todo_of_doc <$> qs.
Proof.
  unfold collect_todos.
  enough (forall acc, fold_left (fun todosData d => todosData ++ [todo_of_doc d]) qs acc
                      = acc ++ (todo_of_doc <$> qs)) as H by apply (H []).
  induction qs as [|d qs' IH]; intros acc; simpl.
  - symmetry. apply app_nil_r.
  - rewrite IH, <- app_assoc. reflexivity.
Qed.

End Runs.

(** The four ways [handleAddTodo] can go. *)
Lemma handleAddTodo_cases (g : Globals) (be : Effect -> option Error) (s : AppState) :
  let guard := JsString.truthy (JsString.trim (newTodo s)) && truthy_opt (userId s) in
  let items := collection (todos_segments g (path_segment (userId s))) in
  let data : gmap (list N) Value :=
    {[ lit "text" := VStr (JsString.trim (newTodo s)); lit "completed" := VBool false ]} in
  (guard = false
   /\ run (handleAddTodo g) be s
      = (Normal tt, {| w_state := s; w_trace := [EPreventDefault] |}))
  \/ (exists e,
        guard = true /\ items = Throw e
        /\ run (handleAddTodo g) be s
           = (Normal tt,
              {| w_state := s;
                 w_trace := [EPreventDefault;
                             EConsoleError "Error adding document: " e] |}))
  \/ (exists c,
        guard = true /\ items = Normal c
        /\ be (EAddDoc c data) = None
        /\ run (handleAddTodo g) be s
           = (Normal tt,
              {| w_state := {| todos := todos s; newTodo := []; loading := loading s;
                               userId := userId s; authReady := authReady s |};
                 w_trace := [EPreventDefault; EAddDoc c data] |}))
  \/ (exists c err,
        guard = true /\ items = Normal c
        /\ be (EAddDoc c data) = Some err
        /\ run (handleAddTodo g) be s
           = (Normal tt,
              {| w_state := s;
                 w_trace := [EPreventDefault; EAddDoc c data;
                             EConsoleError "Error adding document: " err] |})).
Proof.
  intros guard items data. subst guard items.
  destruct (JsString.truthy (JsString.trim (newTodo s)) && truthy_opt (userId s)) eqn:Hguard.
  - destruct (collection (todos_segments g (path_segment (userId s)))) as [c|e] eqn:Hc.
    + destruct (be (EAddDoc c data)) as [err|] eqn:Hbe.
      * right. right. right. exists c, err. repeat apply conj; try reflexivity; try assumption.
        apply handleAddTodo_rejected; assumption.
      * right. right. left. exists c. repeat apply conj; try reflexivity; try assumption.
        apply handleAddTodo_fulfilled; assumption.
    + right. left. exists e. repeat apply conj; try reflexivity.
      apply handleAddTodo_invalid; assumption.
  - left. split; [reflexivity|]. apply handleAddTodo_guarded; assumption.
Qed.

(** Membership of an effect in an explicit trace, case by case. *)
Ltac trace_mem H :=
  repeat (apply elem_of_cons in H as [H|H]);
  try (apply elem_of_nil in H; contradiction);
  try discriminate H.

Lemma fromString_non_string (args : list Value) (v : Value) :
  (forall i, v <> VStr i) -> exists e, ResourcePath.fromString (args ++ [v]) = Throw e.
Proof.
  intros Hv. induction args as [|a args [e IH]]; cbn [app ResourcePath.fromString].
  - destruct v; eauto. destruct (Hv s eq_refl).
  - destruct a; eauto. destruct (ResourcePath.has_double_slash s); [eauto|].
    rewrite IH. eauto.
Qed.

Lemma doc_non_string (args : list Value) (v : Value) :
  (forall i, v <> VStr i) -> exists e, doc (args ++ [v]) = Throw e.
Proof.
  intros Hv. unfold doc. destruct (args ++ [v]) as [|path rest] eqn:Hargs; [eauto|].
  destruct (negb (to_boolean path)); [eauto|].
  rewrite <- Hargs. destruct (fromString_non_string args v Hv) as [e ->]. eauto.
Qed.


(** ** The subscription *)

(** C1. At a delivered document that has a field named [id] of its own, the
    item the snapshot callback builds is the document's fields and nothing
    else: its [id] is that field, and the document id is not in it. *)
Theorem snapshot_item_misses_document_id :
  let r := run (onSnapshot_next [foreign_doc]) accept_all signed_in in
  qd_id foreign_doc = lit "x3"
  /\ todos (state_of r)
     = [{[ lit "id" := VStr (lit "zz"); lit "text" := VStr (lit "imported") ]}]
  /\ todos (state_of r) = [qd_data foreign_doc]
  /\ (forall t, t ∈ todos (state_of r) -> get_prop t (lit "id") <> VStr (qd_id foreign_doc)).
Proof.
  cbv zeta. split; [reflexivity|].
  assert (H : todos (state_of (run (onSnapshot_next [foreign_doc]) accept_all signed_in))
              = [{[ lit "id" := VStr (lit "zz"); lit "text" := VStr (lit "imported") ]}])
    by (vm_compute; reflexivity).
  rewrite H. split; [reflexivity|]. split; [vm_compute; reflexivity|].
  intros t Ht. trace_mem Ht. subst t. vm_compute. discriminate.
Qed.

(** C8. A subscription error is logged and stops the loading indicator; the
    mirror and every other cell stay as they were, and nothing is sent to
    the backend (no new subscription). *)
Theorem subscription_error_keeps_mirror
    (be : Effect -> option Error) (s : AppState) (error : Error) :
  let r := run (onSnapshot_error error) be s in
  trace_of r = [EConsoleError "Error listening for todos:" error]
  /\ loading (state_of r) = false
  /\ todos (state_of r) = todos s
  /\ newTodo (state_of r) = newTodo s
  /\ userId (state_of r) = userId s
  /\ authReady (state_of r) = authReady s
  /\ List.filter is_request (trace_of r) = []
  /\ result_of r = Normal tt.
Proof. unfold onSnapshot_error. run_monad. repeat split. Qed.

(** ** The mutations *)



(** C4. When the input is empty after trimming, adding sends nothing to the
    backend and changes nothing, whether or not an identity is present. *)
Theorem add_blank_issues_nothing
    (g : Globals) (be : Effect -> option Error) (s : AppState) :
  JsString.trim (newTodo s) = [] ->
  let r := run (handleAddTodo g) be s in
  List.filter is_create (trace_of r) = []
  /\ List.filter is_request (trace_of r) = []
  /\ state_of r = s
  /\ result_of r = Normal tt.
Proof.
  intros Htext r. subst r.
  rewrite handleAddTodo_guarded by (rewrite Htext; reflexivity).
  repeat split.
Qed.

(** C5. Without an identity each of the three mutations is a no-op: it sends
    nothing to the backend, leaves the state as it was and completes
    normally. *)
Theorem mutation_without_identity_is_noop
    (g : Globals) (be : Effect -> option Error) (s : AppState) (op : Mutation) :
  identity_absent s ->
  let r := run (mutate g op) be s in
  List.filter is_request (trace_of r) = []
  /\ state_of r = s
  /\ result_of r = Normal tt.
Proof.
  intros Habs%falsy_absent r. subst r. destruct op as [|id cur|id]; unfold mutate.
  - rewrite handleAddTodo_guarded by (rewrite Habs; apply andb_false_r).
    repeat split.
  - rewrite handleToggleTodo_absent by exact Habs. repeat split.
  - rewrite handleDeleteTodo_absent by exact Habs. repeat split.
Qed.

(** C9. The input is cleared only by a create request that the backend
    fulfilled: if the input changed, such a request was sent and fulfilled
    (and the input is now empty); if a create request was sent and rejected,
    the rejection is logged and the whole state, the input included, is as
    before. *)
Theorem input_cleared_only_on_success
    (g : Globals) (be : Effect -> option Error) (s : AppState) :
  let r := run (handleAddTodo g) be s in
  (newTodo (state_of r) <> newTodo s ->
     newTodo (state_of r) = [] /\
     exists c data, EAddDoc c data ∈ trace_of r /\ be (EAddDoc c data) = None)
  /\ (forall c data err,
        EAddDoc c data ∈ trace_of r -> be (EAddDoc c data) = Some err ->
        newTodo (state_of r) = newTodo s
        /\ state_of r = s
        /\ EConsoleError "Error adding document: " err ∈ trace_of r)
  /\ (forall c data,
        EAddDoc c data ∈ trace_of r -> be (EAddDoc c data) = None ->
        newTodo (state_of r) = []).
Proof.
  intros r. subst r.
  destruct (handleAddTodo_cases g be s)
    as [[_ Hrun]|[(e & _ & _ & Hrun)
                 |[(c0 & _ & _ & Hbe & Hrun)|(c0 & err & _ & _ & Hbe & Hrun)]]];
    rewrite Hrun; unfold state_of, trace_of; cbn [snd w_state w_trace newTodo].
  - split; [|split].
    + intros H. contradiction H. reflexivity.
    + intros c data err H. trace_mem H.
    + intros c data H. trace_mem H.
  - split; [|split].
    + intros H. contradiction H. reflexivity.
    + intros c data err H. trace_mem H.
    + intros c data H. trace_mem H.
  - split; [|split].
    + intros _. split; [reflexivity|].
      eexists _, _. split; [|exact Hbe]. apply elem_of_cons. right. apply elem_of_cons. left. reflexivity.
    + intros c data err H Herr. trace_mem H. rewrite H, Hbe in Herr. discriminate.
    + reflexivity.
  - split; [|split].
    + intros H. contradiction H. reflexivity.
    + intros c data err' H Herr. trace_mem H. rewrite H, Hbe in Herr. injection Herr as <-.
      repeat split. do 2 (apply elem_of_cons; right). apply elem_of_cons. left. reflexivity.
    + intros c data H Hnone. trace_mem H. rewrite H, Hbe in Hnone. discriminate.
Qed.

(** C10. Whatever mutation runs, a create request in its trace comes from
    adding, and the [text] it stores is the trimmed input: a non-empty
    string whose first and last code units are not strippable. *)
Theorem created_text_is_trimmed
    (g : Globals) (be : Effect -> option Error) (s : AppState) (op : Mutation)
    (c : CollectionReference) (data : gmap (list N) Value) :
  EAddDoc c data ∈ trace_of (run (mutate g op) be s) ->
  op = Add
  /\ data !! lit "text" = Some (VStr (JsString.trim (newTodo s)))
  /\ JsString.trim (newTodo s) <> []
  /\ (forall a, head (JsString.trim (newTodo s)) = Some a -> JsString.is_trimmable a = false)
  /\ (forall a, last (JsString.trim (newTodo s)) = Some a -> JsString.is_trimmable a = false).
Proof.
  destruct op as [|id cur|id]; unfold mutate.
  - destruct (handleAddTodo_cases g be s)
      as [[_ Hrun]|[(e & _ & _ & Hrun)
                   |[(c0 & Hguard & _ & _ & Hrun)|(c0 & err & Hguard & _ & _ & Hrun)]]];
      rewrite Hrun; unfold trace_of; cbn [snd w_trace]; intros H; trace_mem H;
      injection H as -> ->;
      apply andb_true_iff in Hguard as [Htext%JsStringFacts.truthy_nonempty _];
      (split; [reflexivity|]); (split; [apply lookup_insert_eq|]);
      (split; [exact Htext|]);
      (split; [apply JsStringFacts.trim_first | apply JsStringFacts.trim_last]).
  - destruct (truthy_opt (userId s)) eqn:Ht;
      [destruct (doc (todos_segments g (path_segment (userId s)) ++ [id])) as [d|e] eqn:Hd|].
    + rewrite (handleToggleTodo_present g be s id cur d Ht Hd).
      unfold trace_of. cbn [snd w_trace]. intros H.
      match type of H with context [be ?e] => destruct (be e) end; trace_mem H.
    + rewrite (handleToggleTodo_invalid g be s id cur e Ht Hd).
      unfold trace_of. cbn [snd w_trace]. intros H. trace_mem H.
    + rewrite (handleToggleTodo_absent g be s id cur Ht).
      unfold trace_of. cbn [snd w_trace]. intros H. trace_mem H.
  - destruct (truthy_opt (userId s)) eqn:Ht;
      [destruct (doc (todos_segments g (path_segment (userId s)) ++ [id])) as [d|e] eqn:Hd|].
    + rewrite (handleDeleteTodo_present g be s id d Ht Hd).
      unfold trace_of. cbn [snd w_trace]. intros H.
      match type of H with context [be ?e] => destruct (be e) end; trace_mem H.
    + rewrite (handleDeleteTodo_invalid g be s id e Ht Hd).
      unfold trace_of. cbn [snd w_trace]. intros H. trace_mem H.
    + rewrite (handleDeleteTodo_absent g be s id Ht).
      unfold trace_of. cbn [snd w_trace]. intros H. trace_mem H.
Qed.

(** ** Paths used by the store operations *)


(** ** The session *)

Lemma sign_in_attempt (g : Globals) (be : Effect -> option Error) (s : AppState) :
  run (onAuthStateChanged_callback g None) be s
  = match be (sign_in_request g) with
    | None => (Normal tt, {| w_state := s; w_trace := [sign_in_request g] |})
    | Some err =>
        (Normal tt,
         {| w_state := {| todos := todos s; newTodo := newTodo s; loading := loading s;
                          userId := userId s; authReady := true |};
            w_trace := [sign_in_request g; EConsoleError "Error signing in:" err] |})
    end.
Proof.
  unfold onAuthStateChanged_callback, sign_in_request. run_monad.
  destruct (truthy_opt (initialAuthToken g)); run_monad;
    match goal with |- context [be ?e] => destruct (be e) end; reflexivity.
Qed.

Lemma identity_reported (g : Globals) (be : Effect -> option Error) (s : AppState) (user : User) :
  run (onAuthStateChanged_callback g (Some user)) be s
  = (Normal tt,
     {| w_state := {| todos := todos s; newTodo := newTodo s; loading := loading s;
                      userId := Some (uid user); authReady := true |};
        w_trace := [] |}).
Proof. reflexivity. Qed.



(** ** Further facts about items *)

(** When the document has no field named [id], the item is the document's
    fields with [id] added. *)
Lemma todo_of_doc_fresh_id (d : QueryDocumentSnapshot) :
  qd_data d !! lit "id" = None ->
  todo_of_doc d = <[ lit "id" := VStr (qd_id d) ]> (qd_data d).
Proof.
  intros Hnone. unfold todo_of_doc, object_spread.
  rewrite insert_union_singleton_r by exact Hnone. reflexivity.
Qed.

(** Every field of the document is in the item, with its value. *)
Lemma todo_of_doc_fields (d : QueryDocumentSnapshot) (k : list N) (v : Value) :
  qd_data d !! k = Some v -> todo_of_doc d !! k = Some v.
Proof. intros H. unfold todo_of_doc, object_spread. apply lookup_union_Some_l, H. Qed.

(** The item has the document's field names and [id]. *)
Lemma todo_of_doc_dom (d : QueryDocumentSnapshot) :
  dom (todo_of_doc d) = dom (qd_data d) ∪ {[ lit "id" ]}.
Proof. unfold todo_of_doc, object_spread. rewrite dom_union_L, dom_singleton_L. reflexivity. Qed.

(** A field named [id] in the document is the one the item shows. *)
Lemma todo_of_doc_own_id (d : QueryDocumentSnapshot) (v : Value) :
  qd_data d !! lit "id" = Some v -> todo_of_doc d !! lit "id" = Some v.
Proof. apply todo_of_doc_fields. Qed.

(** The full cycle of the spec's scenario: a snapshot with the one item
    [x1] gives the mirror [[milk]]. *)
Example snapshot_one_item :
  todos (state_of (run (onSnapshot_next
                          [{| qd_id := lit "x1";
                              qd_data := {[ lit "text" := VStr (lit "buy milk");
                                            lit "completed" := VBool false ]} |}])
                       accept_all signed_out))
  = [milk].
Proof. vm_compute. reflexivity. Qed.

Example snapshot_empty :
  state_of (run (onSnapshot_next []) accept_all signed_out)
  = {| todos := []; newTodo := lit "walk dog"; loading := false;
       userId := None; authReady := false |}.
Proof. reflexivity. Qed.

Example trim_sample : JsString.trim (lit "  walk dog ") = lit "walk dog".
Proof. reflexivity. Qed.

Example trim_blank : JsString.trim (lit "   ") = [] /\ JsString.trim [] = [].
Proof. split; reflexivity. Qed.

(** ** Where the claims as written fail *)




(** ** Instances on the sample data *)



Lemma add_blank_issues_nothing_witness :
  JsString.trim (newTodo signed_in_blank) = []
  /\ List.filter is_create
       (trace_of (run (handleAddTodo plain_globals) accept_all signed_in_blank)) = [].
Proof.
  split; [reflexivity|].
  exact (proj1 (add_blank_issues_nothing plain_globals accept_all signed_in_blank eq_refl)).
Defined.

Lemma mutation_without_identity_is_noop_witness :
  identity_absent signed_out
  /\ List.filter is_request
       (trace_of (run (mutate plain_globals (Toggle (VStr (lit "x1")) (VBool false)))
                      accept_all signed_out)) = []
  /\ state_of (run (mutate plain_globals (Toggle (VStr (lit "x1")) (VBool false)))
                   accept_all signed_out) = signed_out
  /\ result_of (run (mutate plain_globals (Toggle (VStr (lit "x1")) (VBool false)))
                    accept_all signed_out) = Normal tt.
Proof.
  split; [left; reflexivity|].
  exact (mutation_without_identity_is_noop plain_globals accept_all signed_out
           (Toggle (VStr (lit "x1")) (VBool false)) (or_introl eq_refl)).
Defined.

Lemma created_text_is_trimmed_witness :
  EAddDoc u1_todos
          {[ lit "text" := VStr (lit "walk dog"); lit "completed" := VBool false ]}
    ∈ trace_of (run (mutate plain_globals Add) accept_all signed_in)
  /\ newTodo signed_in = lit "  walk dog "
  /\ ({[ lit "text" := VStr (lit "walk dog"); lit "completed" := VBool false ]}
        : gmap (list N) Value) !! lit "text"
     = Some (VStr (JsString.trim (newTodo signed_in))).
Proof.
  assert (Hin :
    EAddDoc u1_todos
            {[ lit "text" := VStr (lit "walk dog"); lit "completed" := VBool false ]}
      ∈ trace_of (run (mutate plain_globals Add) accept_all signed_in)).
  { apply list_elem_of_further, list_elem_of_here. }
  split; [exact Hin|]. split; [reflexivity|].
  exact (proj1 (proj2 (created_text_is_trimmed plain_globals accept_all signed_in Add _ _ Hin))).
Defined.



(** * Further properties of the component *)

(** ** Shared facts *)

(** Every mutation ends in one of five ways, whatever the backend answers:
    nothing sent; [doc] threw and the exception left the handler;
    [collection] threw and the error was logged; one request sent and
    fulfilled; one request sent, rejected and logged. *)
Lemma mutate_cases (g : Globals) (be : Effect -> option Error) (s : AppState) (op : Mutation) :
  (exists local,
      run (mutate g op) be s = (Normal tt, {| w_state := s; w_trace := local |})
      /\ List.filter is_request local = []
      /\ (forall msg err, EConsoleError msg err ∉ local)
      /\ (truthy_opt (userId s) = false
          \/ (op = Add /\ JsString.trim (newTodo s) = [])))
  \/ (exists e,
      op <> Add
      /\ truthy_opt (userId s) = true
      /\ run (mutate g op) be s = (Throw e, {| w_state := s; w_trace := [] |}))
  \/ (exists e,
      op = Add
      /\ collection (todos_segments g (path_segment (userId s))) = Throw e
      /\ run (mutate g op) be s
         = (Normal tt,
            {| w_state := s;
               w_trace := [EPreventDefault; EConsoleError (failure_message op) e] |}))
  \/ (exists local req s',
      run (mutate g op) be s = (Normal tt, {| w_state := s'; w_trace := local ++ [req] |})
      /\ List.filter is_request local = []
      /\ (forall msg err, EConsoleError msg err ∉ local)
      /\ is_mutation req = true
      /\ be req = None
      /\ s' = (if is_create req
               then {| todos := todos s; newTodo := []; loading := loading s;
                       userId := userId s; authReady := authReady s |}
               else s))
  \/ (exists local req err,
      run (mutate g op) be s
      = (Normal tt,
         {| w_state := s;
            w_trace := local ++ [req; EConsoleError (failure_message op) err] |})
      /\ List.filter is_request local = []
      /\ (forall msg err', EConsoleError msg err' ∉ local)
      /\ is_mutation req = true
      /\ be req = Some err).
Proof.
  destruct op as [|id cur|id]; unfold mutate.
  - destruct (handleAddTodo_cases g be s)
      as [[Hguard Hrun]|[(e & _ & Hc & Hrun)
                        |[(c & _ & _ & Hbe & Hrun)|(c & err & _ & _ & Hbe & Hrun)]]];
      cbv zeta in *.
    + left. exists [EPreventDefault]. repeat split; try assumption.
      * intros msg err H. trace_mem H.
      * apply andb_false_iff in Hguard as [Ht|Hu]; [|left; exact Hu].
        right. split; [reflexivity|].
        destruct (JsString.trim (newTodo s)); [reflexivity | discriminate].
    + right. right. left. exists e. repeat split; assumption.
    + do 3 right. left. eexists [EPreventDefault], _, _. split; [exact Hrun|].
      repeat split; try assumption. intros msg err H. trace_mem H.
    + do 4 right. eexists [EPreventDefault], _, err. split; [exact Hrun|].
      repeat split; try assumption. intros msg err' H. trace_mem H.
  - destruct (truthy_opt (userId s)) eqn:Ht;
      [destruct (doc (todos_segments g (path_segment (userId s)) ++ [id])) as [d|e] eqn:Hd|].
    + pose proof (handleToggleTodo_present g be s id cur d Ht Hd) as Hrun. cbv zeta in Hrun.
      match type of Hrun with context [be ?e] => destruct (be e) as [err|] eqn:Hbe end.
      * do 4 right. eexists [], _, err. split; [exact Hrun|].
        repeat split; try assumption. intros msg err' H. trace_mem H.
      * do 3 right. left. eexists [], _, _. split; [exact Hrun|].
        repeat split; try assumption. intros msg err H. trace_mem H.
    + right. left. exists e. split; [discriminate|]. split; [reflexivity|].
      apply handleToggleTodo_invalid; assumption.
    + left. exists []. split; [apply handleToggleTodo_absent, Ht|].
      repeat split; [intros msg err H; trace_mem H | left; reflexivity].
  - destruct (truthy_opt (userId s)) eqn:Ht;
      [destruct (doc (todos_segments g (path_segment (userId s)) ++ [id])) as [d|e] eqn:Hd|].
    + pose proof (handleDeleteTodo_present g be s id d Ht Hd) as Hrun. cbv zeta in Hrun.
      match type of Hrun with context [be ?e] => destruct (be e) as [err|] eqn:Hbe end.
      * do 4 right. eexists [], _, err. split; [exact Hrun|].
        repeat split; try assumption. intros msg err' H. trace_mem H.
      * do 3 right. left. eexists [], _, _. split; [exact Hrun|].
        repeat split; try assumption. intros msg err H. trace_mem H.
    + right. left. exists e. split; [discriminate|]. split; [reflexivity|].
      apply handleDeleteTodo_invalid; assumption.
    + left. exists []. split; [apply handleDeleteTodo_absent, Ht|].
      repeat split; [intros msg err H; trace_mem H | left; reflexivity].
Qed.

(** ** Mutations: what they send, keep and log *)

(** X1. With an identity present and an id from which [doc] makes a
    reference, deleting sends exactly one request to the backend, a delete
    of that document, and leaves the state as it was.  When application id,
    identity and id are single path segments the document is
    [artifacts/<appId>/users/<identity>/todos/<id>]. *)
Theorem delete_issues_one_delete
    (g : Globals) (be : Effect -> option Error) (s : AppState) (u : list N)
    (id : Value) (docRef : DocumentReference) :
  userId s = Some u -> u <> [] ->
  doc (todos_segments g u ++ [id]) = Normal docRef ->
  let r := run (handleDeleteTodo g id) be s in
  List.filter is_request (trace_of r) = [EDeleteDoc docRef]
  /\ state_of r = s
  /\ result_of r = Normal tt
  /\ (forall i,
        id = VStr i -> single_segment (appId g) = true -> single_segment u = true ->
        single_segment i = true ->
        docRef = {| d_path := [lit "artifacts"; appId g; lit "users"; u; lit "todos"; i] |}).
Proof.
  intros Hu Hne Hdoc r. subst r.
  destruct (truthy_present s u Hu Hne) as [Ht Hp].
  rewrite (handleDeleteTodo_present g be s id docRef Ht) by (rewrite Hp; exact Hdoc).
  unfold trace_of, state_of, result_of. cbn [fst snd w_state w_trace].
  repeat apply conj.
  - match goal with |- context [be ?e] => destruct (be e) end; reflexivity.
  - reflexivity.
  - reflexivity.
  - intros i -> Ha Hsu Hi. rewrite (doc_valid g u i Ha Hsu Hi) in Hdoc.
    injection Hdoc as <-. reflexivity.
Qed.


(** X3. A mutation logs only failures, each with the operation's own
    message: the reason logged is that of a rejected request of the trace
    or, for adding, what [collection] threw; and every rejected request is
    logged. *)
Theorem mutation_logs_iff_rejected
    (g : Globals) (be : Effect -> option Error) (s : AppState) (op : Mutation) :
  let t := trace_of (run (mutate g op) be s) in
  (forall msg err,
     EConsoleError msg err ∈ t ->
     msg = failure_message op
     /\ ((exists req, req ∈ t /\ is_mutation req = true /\ be req = Some err)
         \/ (op = Add
             /\ collection (todos_segments g (path_segment (userId s))) = Throw err)))
  /\ (forall req err,
        req ∈ t -> is_mutation req = true -> be req = Some err ->
        EConsoleError (failure_message op) err ∈ t).
Proof.
  intros t. subst t.
  destruct (mutate_cases g be s op)
    as [(local & -> & Hloc & Hlog & _)
       |[(e & _ & _ & ->)
        |[(e & Hop & Hc & ->)
         |[(local & req0 & s' & -> & Hloc & Hlog & Hmut & Hbe & _)
          |(local & req0 & err0 & -> & Hloc & Hlog & Hmut & Hbe)]]]];
    unfold trace_of; cbn [snd w_trace];
    try (assert (Hnone : forall e, e ∈ local -> is_mutation e = true -> False)
      by (intros e' He Hm;
          assert (e' ∈ List.filter is_request local)
            by (apply list_elem_of_In, List.filter_In; split;
                [apply list_elem_of_In, He | destruct e'; try discriminate Hm; reflexivity]);
          rewrite Hloc in *; eapply not_elem_of_nil; eassumption)).
  - split.
    + intros msg err H. destruct (Hlog _ _ H).
    + intros req err H Hm _. destruct (Hnone _ H Hm).
  - split.
    + intros msg err H. trace_mem H.
    + intros req err H. trace_mem H.
  - split.
    + intros msg err H. trace_mem H. injection H as -> ->. split; [reflexivity|].
      right. split; assumption.
    + intros req err H Hm. trace_mem H; subst req; discriminate Hm.
  - split.
    + intros msg err H. apply elem_of_app in H as [H|H]; [destruct (Hlog _ _ H)|].
      trace_mem H. subst req0. discriminate Hmut.
    + intros req err H Hm Herr. apply elem_of_app in H as [H|H]; [destruct (Hnone _ H Hm)|].
      trace_mem H. subst req. rewrite Hbe in Herr. discriminate.
  - split.
    + intros msg err H. apply elem_of_app in H as [H|H]; [destruct (Hlog _ _ H)|].
      trace_mem H; [subst req0; discriminate Hmut|].
      injection H as -> ->. split; [reflexivity|].
      left. exists req0. split; [|split; assumption].
      apply elem_of_app. right. apply list_elem_of_here.
    + intros req err H Hm Herr. apply elem_of_app in H as [H|H]; [destruct (Hnone _ H Hm)|].
      trace_mem H; [|subst req; discriminate Hm].
      subst req. rewrite Hbe in Herr. injection Herr as ->.
      apply elem_of_app. right. apply list_elem_of_further, list_elem_of_here.
Qed.

(** X27. When [doc] throws on the id it is given, toggling and deleting do
    not catch it ([doc] is called before the [try]): the exception leaves
    the handler, nothing is sent or logged and the state is untouched. *)
Theorem invalid_reference_escapes_toggle_and_delete
    (g : Globals) (be : Effect -> option Error) (s : AppState) (u : list N)
    (id cur : Value) (e : Error) :
  userId s = Some u -> u <> [] ->
  doc (todos_segments g u ++ [id]) = Throw e ->
  run (handleToggleTodo g id cur) be s = (Throw e, {| w_state := s; w_trace := [] |})
  /\ run (handleDeleteTodo g id) be s = (Throw e, {| w_state := s; w_trace := [] |}).
Proof.
  intros Hu Hne Hdoc. destruct (truthy_present s u Hu Hne) as [Ht Hp].
  rewrite <- Hp in Hdoc. split.
  - apply handleToggleTodo_invalid; assumption.
  - apply handleDeleteTodo_invalid; assumption.
Qed.

(** X28. When [collection] throws on the application id and identity, adding
    catches it ([collection] is called inside the [try]): the error is logged
    as a failed add, no create is sent, the input is kept and the handler
    completes normally. *)
Theorem invalid_collection_is_logged_by_add
    (g : Globals) (be : Effect -> option Error) (s : AppState) (u : list N) (e : Error) :
  userId s = Some u -> u <> [] ->
  JsString.trim (newTodo s) <> [] ->
  collection (todos_segments g u) = Throw e ->
  run (handleAddTodo g) be s
  = (Normal tt,
     {| w_state := s;
        w_trace := [EPreventDefault; EConsoleError "Error adding document: " e] |}).
Proof.
  intros Hu Hne Htext%JsStringFacts.truthy_nonempty Hc.
  destruct (truthy_present s u Hu Hne) as [Ht Hp]. rewrite <- Hp in Hc.
  apply handleAddTodo_invalid; [rewrite Htext, Ht; reflexivity | exact Hc].
Qed.

(** ** The session: the other branches of the identity callback *)

(** X4. A notification that carries a user records the uid and marks the
    session ready, sends nothing and leaves mirror, input and loading flag
    alone.  From the resulting state the data effect does nothing for an
    empty uid; otherwise it opens exactly one subscription, on the
    collection [collection] makes for that user, or throws what
    [collection] throws and opens none. *)
Theorem identity_notification_subscribes
    (g : Globals) (be be' : Effect -> option Error) (s : AppState) (user : User) :
  let r := run (onAuthStateChanged_callback g (Some user)) be s in
  let r' := run (dataFetchingEffect g) be' (state_of r) in
  userId (state_of r) = Some (uid user)
  /\ authReady (state_of r) = true
  /\ todos (state_of r) = todos s
  /\ newTodo (state_of r) = newTodo s
  /\ loading (state_of r) = loading s
  /\ trace_of r = []
  /\ result_of r = Normal tt
  /\ (uid user = [] -> trace_of r' = [] /\ result_of r' = Normal tt)
  /\ (uid user <> [] ->
      match collection (todos_segments g (uid user)) with
      | Normal c => trace_of r' = [EOnSnapshot c] /\ result_of r' = Normal tt
      | Throw e => trace_of r' = [] /\ result_of r' = Throw e
      end)
  /\ (single_segment (appId g) = true -> single_segment (uid user) = true ->
      trace_of r'
      = [EOnSnapshot {| c_path := [lit "artifacts"; appId g; lit "users"; uid user;
                                   lit "todos"] |}])
  /\ state_of r' = state_of r.
Proof.
  intros r r'. subst r r'. rewrite identity_reported.
  unfold state_of at 1 2 3 4 5, trace_of at 1, result_of at 1.
  cbn [fst snd w_state w_trace userId authReady todos newTodo loading].
  do 7 (split; [reflexivity|]).
  change (state_of (Normal tt,
            {| w_state := {| todos := todos s; newTodo := newTodo s; loading := loading s;
                             userId := Some (uid user); authReady := true |};
               w_trace := [] |}))
    with {| todos := todos s; newTodo := newTodo s; loading := loading s;
            userId := Some (uid user); authReady := true |}.
  set (s1 := {| todos := todos s; newTodo := newTodo s; loading := loading s;
                userId := Some (uid user); authReady := true |}).
  assert (Hvalid : forall c, collection (todos_segments g (uid user)) = Normal c ->
            uid user <> [] ->
            run (dataFetchingEffect g) be' s1
            = (Normal tt, {| w_state := s1; w_trace := [EOnSnapshot c] |})).
  { intros c Hc Hne. apply dataFetchingEffect_subscribes; [reflexivity| |exact Hc].
    cbn. destruct (uid user); [contradiction Hne; reflexivity | reflexivity]. }
  repeat apply conj.
  - intros Hu. rewrite dataFetchingEffect_idle by (cbn; rewrite Hu; reflexivity).
    split; reflexivity.
  - intros Hne. destruct (collection (todos_segments g (uid user))) as [c|e] eqn:Hc.
    + rewrite (Hvalid c eq_refl Hne). split; reflexivity.
    + rewrite (dataFetchingEffect_throws g be' s1 e); [split; reflexivity|reflexivity| |exact Hc].
      cbn. destruct (uid user); [contradiction Hne; reflexivity | reflexivity].
  - intros Ha Hsu. rewrite (Hvalid _ (collection_valid g (uid user) Ha Hsu)); [reflexivity|].
    intros Hnil. rewrite Hnil in Hsu. discriminate Hsu.
  - destruct (JsString.truthy (uid user)) eqn:Hu.
    + destruct (collection (todos_segments g (uid user))) as [c|e] eqn:Hc.
      * rewrite (dataFetchingEffect_subscribes g be' s1 c); auto.
      * rewrite (dataFetchingEffect_throws g be' s1 e); auto.
    + rewrite dataFetchingEffect_idle; [reflexivity|].
      cbn [s1 authReady userId truthy_opt]. rewrite Hu. reflexivity.
Qed.

(** X5. When the sign-in that follows a no-identity notification is fulfilled,
    the callback writes nothing: in particular the session is not marked
    ready by it, only by the identity notification that comes next. *)
Theorem sign_in_fulfilled_writes_nothing
    (g : Globals) (be : Effect -> option Error) (s : AppState) :
  be (sign_in_request g) = None ->
  let r := run (onAuthStateChanged_callback g None) be s in
  state_of r = s
  /\ trace_of r = [sign_in_request g]
  /\ result_of r = Normal tt.
Proof.
  intros Hbe r. subst r. rewrite sign_in_attempt, Hbe. repeat split.
Qed.

(** X6. A no-identity notification makes exactly one sign-in call, whatever its
    outcome: with the supplied token when that is a non-empty string,
    anonymous when the token is missing or empty.  A rejected token sign-in
    is not followed by an anonymous one. *)
Theorem sign_in_uses_token_when_supplied
    (g : Globals) (be : Effect -> option Error) (s : AppState) :
  List.filter is_request (trace_of (run (onAuthStateChanged_callback g None) be s))
  = [match __initial_auth_token g with
     | Some (c :: token) => ESignInWithCustomToken (c :: token)
     | Some [] | None => ESignInAnonymously
     end].
Proof.
  rewrite sign_in_attempt.
  assert (Hreq : sign_in_request g
                 = match __initial_auth_token g with
                   | Some (c :: token) => ESignInWithCustomToken (c :: token)
                   | Some [] | None => ESignInAnonymously
                   end).
  { unfold sign_in_request, initialAuthToken.
    destruct (__initial_auth_token g) as [[|c token]|]; reflexivity. }
  destruct (be (sign_in_request g)); unfold trace_of; cbn [snd w_trace];
    rewrite Hreq; destruct (__initial_auth_token g) as [[|c token]|]; reflexivity.
Qed.

(** X7. A no-identity notification never clears what the component holds: the
    identity cell, the mirror, the input and the loading flag are as before
    whatever the sign-in's outcome, and readiness is as before or raised.
    An identity recorded earlier therefore stays in use after a sign-out. *)
Theorem no_identity_notification_keeps_identity
    (g : Globals) (be : Effect -> option Error) (s : AppState) :
  let r := run (onAuthStateChanged_callback g None) be s in
  userId (state_of r) = userId s
  /\ todos (state_of r) = todos s
  /\ newTodo (state_of r) = newTodo s
  /\ loading (state_of r) = loading s
  /\ (authReady (state_of r) = authReady s \/ authReady (state_of r) = true).
Proof.
  intros r. subst r. rewrite sign_in_attempt.
  destruct (be (sign_in_request g)); unfold state_of;
    cbn [snd w_state userId todos newTodo loading authReady]; repeat apply conj; auto.
Qed.

(** ** Adding: surrounding whitespace *)

Lemma trimStart_strip_prefix (pre s : list N) :
  forallb JsString.is_trimmable pre = true ->
  JsString.trimStart (pre ++ s) = JsString.trimStart s.
Proof.
  induction pre as [|c pre IH]; simpl; [reflexivity|].
  intros [Hc Hpre]%andb_true_iff. rewrite Hc. apply IH, Hpre.
Qed.

Lemma trimStart_all (s : list N) :
  forallb JsString.is_trimmable s = true -> JsString.trimStart s = [].
Proof.
  intros H. rewrite <- (app_nil_r s). rewrite trimStart_strip_prefix by exact H. reflexivity.
Qed.

Lemma trimStart_app_kept (s post : list N) :
  JsString.trimStart s <> [] ->
  JsString.trimStart (s ++ post) = JsString.trimStart s ++ post.
Proof.
  induction s as [|c s IH]; simpl; [congruence|].
  destruct (JsString.is_trimmable c); [exact IH | reflexivity].
Qed.

Lemma trimEnd_strip_suffix (s post : list N) :
  forallb JsString.is_trimmable post = true ->
  JsString.trimEnd (s ++ post) = JsString.trimEnd s.
Proof.
  intros Hpost. unfold JsString.trimEnd. rewrite rev_app_distr.
  rewrite trimStart_strip_prefix; [reflexivity|].
  rewrite forallb_forall in *. intros x Hx. apply Hpost, in_rev, Hx.
Qed.

Lemma trim_strip (pre s post : list N) :
  forallb JsString.is_trimmable pre = true ->
  forallb JsString.is_trimmable post = true ->
  JsString.trim (pre ++ s ++ post) = JsString.trim s.
Proof.
  intros Hpre Hpost. unfold JsString.trim. rewrite trimStart_strip_prefix by exact Hpre.
  destruct (JsString.trimStart s) as [|c r] eqn:Hs.
  - assert (Hall : forallb JsString.is_trimmable (s ++ post) = true).
    { destruct (JsStringFacts.trimStart_prefix s) as (p & Hp & Hall). rewrite Hs, app_nil_r in Hp.
      subst p. rewrite forallb_app, Hall, Hpost. reflexivity. }
    rewrite (trimStart_all _ Hall). reflexivity.
  - rewrite trimStart_app_kept by (rewrite Hs; discriminate).
    rewrite Hs. apply trimEnd_strip_suffix, Hpost.
Qed.

(** X8. Adding is blind to whitespace around the input: two states with the same
    identity whose inputs differ only by strippable code units in front and
    behind send the same requests. *)
Theorem add_ignores_surrounding_whitespace
    (g : Globals) (be : Effect -> option Error) (s s' : AppState) (pre post : list N) :
  forallb JsString.is_trimmable pre = true ->
  forallb JsString.is_trimmable post = true ->
  newTodo s' = pre ++ newTodo s ++ post ->
  userId s' = userId s ->
  trace_of (run (handleAddTodo g) be s') = trace_of (run (handleAddTodo g) be s).
Proof.
  intros Hpre Hpost Hnew Hu.
  pose proof (trim_strip pre (newTodo s) post Hpre Hpost) as Htrim. rewrite <- Hnew in Htrim.
  destruct (handleAddTodo_cases g be s)
    as [[Hguard Hrun]|[(e & Hguard & Hc & Hrun)
                      |[(c & Hguard & Hc & Hbe & Hrun)|(c & err & Hguard & Hc & Hbe & Hrun)]]];
    cbv zeta in *; rewrite Hrun; rewrite <- Htrim, <- Hu in Hguard;
    try rewrite <- Hu in Hc; try rewrite <- Htrim in Hbe.
  - rewrite (handleAddTodo_guarded g be s' Hguard). reflexivity.
  - rewrite (handleAddTodo_invalid g be s' e Hguard Hc). reflexivity.
  - rewrite (handleAddTodo_fulfilled g be s' c Hguard Hc Hbe), Htrim. reflexivity.
  - rewrite (handleAddTodo_rejected g be s' c err Hguard Hc Hbe), Htrim. reflexivity.
Qed.

(** ** From a snapshot to a click *)

Lemma get_prop_todo_of_doc (d : QueryDocumentSnapshot) (k : list N) :
  k <> lit "id" -> get_prop (todo_of_doc d) k = get_prop (qd_data d) k.
Proof.
  intros Hk. unfold get_prop, todo_of_doc, object_spread.
  destruct (qd_data d !! k) as [v|] eqn:Hd.
  - rewrite (lookup_union_Some_l _ _ _ _ Hd). reflexivity.
  - rewrite lookup_union_r by exact Hd.
    rewrite lookup_singleton_ne by congruence. reflexivity.
Qed.

Lemma get_prop_id_fresh (d : QueryDocumentSnapshot) :
  qd_data d !! lit "id" = None -> get_prop (todo_of_doc d) (lit "id") = VStr (qd_id d).
Proof.
  intros Hnone. unfold get_prop, todo_of_doc, object_spread.
  rewrite lookup_union_r by exact Hnone. rewrite lookup_singleton_eq. reflexivity.
Qed.

Lemma get_prop_id_own (d : QueryDocumentSnapshot) (v : Value) :
  qd_data d !! lit "id" = Some v -> get_prop (todo_of_doc d) (lit "id") = v.
Proof.
  intros Hown. unfold get_prop, todo_of_doc, object_spread.
  rewrite (lookup_union_Some_l _ _ _ _ Hown). reflexivity.
Qed.

Lemma completed_is_not_id : lit "completed" <> lit "id".
Proof. discriminate. Qed.

Lemma toggle_requests (g : Globals) (be : Effect -> option Error) (s : AppState)
    (u : list N) (id cur : Value) (docRef : DocumentReference) :
  userId s = Some u -> u <> [] ->
  doc (todos_segments g u ++ [id]) = Normal docRef ->
  List.filter is_request (trace_of (run (handleToggleTodo g id cur) be s))
  = [EUpdateDoc docRef {[ lit "completed" := VBool (negb (to_boolean cur)) ]}].
Proof.
  intros Hu Hne Hdoc. destruct (truthy_present s u Hu Hne) as [Ht Hp].
  rewrite (handleToggleTodo_present g be s id cur docRef Ht) by (rewrite Hp; exact Hdoc).
  unfold trace_of. cbn [snd w_trace].
  match goal with |- context [be ?e] => destruct (be e) end; reflexivity.
Qed.

Lemma delete_requests (g : Globals) (be : Effect -> option Error) (s : AppState)
    (u : list N) (id : Value) (docRef : DocumentReference) :
  userId s = Some u -> u <> [] ->
  doc (todos_segments g u ++ [id]) = Normal docRef ->
  List.filter is_request (trace_of (run (handleDeleteTodo g id) be s))
  = [EDeleteDoc docRef].
Proof.
  intros Hu Hne Hdoc. destruct (truthy_present s u Hu Hne) as [Ht Hp].
  rewrite (handleDeleteTodo_present g be s id docRef Ht) by (rewrite Hp; exact Hdoc).
  unfold trace_of. cbn [snd w_trace].
  match goal with |- context [be ?e] => destruct (be e) end; reflexivity.
Qed.

Lemma doc_valid_inv (g : Globals) (u i : list N) (docRef : DocumentReference) :
  doc (todos_segments g u ++ [VStr i]) = Normal docRef ->
  single_segment (appId g) = true -> single_segment u = true -> single_segment i = true ->
  docRef = {| d_path := [lit "artifacts"; appId g; lit "users"; u; lit "todos"; i] |}.
Proof.
  intros Hdoc Ha Hu Hi. rewrite (doc_valid g u i Ha Hu Hi) in Hdoc.
  injection Hdoc as <-. reflexivity.
Qed.

(** X9. The checkbox of an item built from a delivered document that has no
    field named [id] hands the document's id to [doc]: when [doc] makes a
    reference from it, the one request sent is an update of that reference
    whose only field is [completed], set to the negated truthiness of the
    document's own [completed] (so [true] when the document has none).  For
    single path segments the reference is [.../todos/<doc.id>]. *)
Theorem checkbox_updates_its_document
    (g : Globals) (be : Effect -> option Error) (s : AppState) (u : list N)
    (d : QueryDocumentSnapshot) (docRef : DocumentReference) :
  userId s = Some u -> u <> [] ->
  qd_data d !! lit "id" = None ->
  doc (todos_segments g u ++ [VStr (qd_id d)]) = Normal docRef ->
  let r := run (TodoItem.handleToggle (handleToggleTodo g) (todo_of_doc d)) be s in
  List.filter is_request (trace_of r)
  = [EUpdateDoc docRef
       {[ lit "completed" :=
            VBool (negb (to_boolean (get_prop (qd_data d) (lit "completed")))) ]}]
  /\ result_of r = Normal tt
  /\ (single_segment (appId g) = true -> single_segment u = true ->
      single_segment (qd_id d) = true ->
      docRef
      = {| d_path := [lit "artifacts"; appId g; lit "users"; u; lit "todos"; qd_id d] |}).
Proof.
  intros Hu Hne Hfresh Hdoc r. subst r. unfold TodoItem.handleToggle.
  rewrite (get_prop_id_fresh d Hfresh), (get_prop_todo_of_doc d _ completed_is_not_id).
  repeat apply conj.
  - apply (toggle_requests g be s u); assumption.
  - destruct (truthy_present s u Hu Hne) as [Ht Hp].
    rewrite (handleToggleTodo_present g be s _ _ docRef Ht) by (rewrite Hp; exact Hdoc).
    reflexivity.
  - apply doc_valid_inv, Hdoc.
Qed.

(** X10. The delete button of an item built from a delivered document that
    has no field named [id] hands the document's id to [doc]: when [doc]
    makes a reference from it, the one request sent is a delete of that
    reference.  For single path segments the reference is
    [.../todos/<doc.id>]. *)
Theorem delete_button_deletes_its_document
    (g : Globals) (be : Effect -> option Error) (s : AppState) (u : list N)
    (d : QueryDocumentSnapshot) (docRef : DocumentReference) :
  userId s = Some u -> u <> [] ->
  qd_data d !! lit "id" = None ->
  doc (todos_segments g u ++ [VStr (qd_id d)]) = Normal docRef ->
  let r := run (TodoItem.handleDelete (handleDeleteTodo g) (todo_of_doc d)) be s in
  List.filter is_request (trace_of r) = [EDeleteDoc docRef]
  /\ result_of r = Normal tt
  /\ (single_segment (appId g) = true -> single_segment u = true ->
      single_segment (qd_id d) = true ->
      docRef
      = {| d_path := [lit "artifacts"; appId g; lit "users"; u; lit "todos"; qd_id d] |}).
Proof.
  intros Hu Hne Hfresh Hdoc r. subst r. unfold TodoItem.handleDelete.
  rewrite (get_prop_id_fresh d Hfresh).
  repeat apply conj.
  - apply (delete_requests g be s u); assumption.
  - destruct (truthy_present s u Hu Hne) as [Ht Hp].
    rewrite (handleDeleteTodo_present g be s _ docRef Ht) by (rewrite Hp; exact Hdoc).
    reflexivity.
  - apply doc_valid_inv, Hdoc.
Qed.

(** X11. When the delivered document has a field named [id] of its own, it is
    that field's value, not the document's id, that the item's checkbox and
    delete button hand to [doc]: when [doc] makes a reference from it, both
    requests address that reference, and when [doc] throws on it, both
    clicks throw and send nothing.  A value that is not a string always
    makes [doc] throw. *)
Theorem own_id_field_redirects_clicks
    (g : Globals) (be : Effect -> option Error) (s : AppState) (u : list N)
    (d : QueryDocumentSnapshot) (v : Value) :
  userId s = Some u -> u <> [] ->
  qd_data d !! lit "id" = Some v ->
  let r := run (TodoItem.handleToggle (handleToggleTodo g) (todo_of_doc d)) be s in
  let r' := run (TodoItem.handleDelete (handleDeleteTodo g) (todo_of_doc d)) be s in
  match doc (todos_segments g u ++ [v]) with
  | Normal docRef =>
      omap (fun e => match e with
                     | EUpdateDoc ref _ | EDeleteDoc ref => Some ref
                     | _ => None
                     end)
           (trace_of r ++ trace_of r')
      = [docRef; docRef]
      /\ (forall j,
            v = VStr j -> single_segment (appId g) = true -> single_segment u = true ->
            single_segment j = true ->
            docRef
            = {| d_path := [lit "artifacts"; appId g; lit "users"; u; lit "todos"; j] |})
  | Throw e =>
      r = (Throw e, {| w_state := s; w_trace := [] |})
      /\ r' = (Throw e, {| w_state := s; w_trace := [] |})
  end
  /\ ((forall j, v <> VStr j) -> exists e, doc (todos_segments g u ++ [v]) = Throw e).
Proof.
  intros Hu Hne Hown r r'. subst r r'. unfold TodoItem.handleToggle, TodoItem.handleDelete.
  rewrite (get_prop_id_own d _ Hown).
  destruct (truthy_present s u Hu Hne) as [Ht Hp].
  split; [|apply doc_non_string].
  destruct (doc (todos_segments g u ++ [v])) as [docRef|e] eqn:Hdoc.
  - rewrite (handleToggleTodo_present g be s v _ docRef Ht) by (rewrite Hp; exact Hdoc).
    rewrite (handleDeleteTodo_present g be s v docRef Ht) by (rewrite Hp; exact Hdoc).
    split.
    + unfold trace_of. cbn [snd w_trace].
      repeat match goal with |- context [be ?e] => destruct (be e) end; reflexivity.
    + intros j ->. apply doc_valid_inv, Hdoc.
  - rewrite <- Hp in Hdoc. split.
    + apply handleToggleTodo_invalid; assumption.
    + apply handleDeleteTodo_invalid; assumption.
Qed.


(** ** The page *)

Lemma onSnapshot_next_run
    (be : Effect -> option Error) (s : AppState) (qs : list QueryDocumentSnapshot) :
  run (onSnapshot_next qs) be s
  = (Normal tt,
     {| w_state := {| todos := todo_of_doc <$> qs; newTodo := newTodo s; loading := false;
                      userId := userId s; authReady := authReady s |};
        w_trace := [] |}).
Proof. unfold onSnapshot_next. rewrite collect_todos_map. reflexivity. Qed.

Lemma onSnapshot_error_run (be : Effect -> option Error) (s : AppState) (error : Error) :
  run (onSnapshot_error error) be s
  = (Normal tt,
     {| w_state := {| todos := todos s; newTodo := newTodo s; loading := false;
                      userId := userId s; authReady := authReady s |};
        w_trace := [EConsoleError "Error listening for todos:" error] |}).
Proof. reflexivity. Qed.

(** X12. After a snapshot the loading message is gone, the empty message shows
    exactly when nothing was delivered, the list has one entry per delivered
    document, and identity line and input are as before. *)
Theorem page_after_snapshot
    (be : Effect -> option Error) (s : AppState) (qs : list QueryDocumentSnapshot) :
  let v := render (state_of (run (onSnapshot_next qs) be s)) in
  v_loading_message v = false
  /\ (v_empty_message v = true <-> qs = [])
  /\ length (v_items v) = length qs
  /\ v_items v = (fun d => item_view (todo_of_doc d)) <$> qs
  /\ v_user v = v_user (render s)
  /\ v_input v = v_input (render s).
Proof.
  rewrite onSnapshot_next_run. unfold state_of, render.
  cbn [snd w_state v_loading_message v_empty_message v_items v_user v_input
       todos newTodo loading userId authReady negb andb].
  split; [reflexivity|]. split.
  { rewrite length_fmap. destruct qs; simpl; split; congruence. }
  split; [rewrite length_map, length_fmap; reflexivity|].
  split; [|split; reflexivity].
  change (map item_view (todo_of_doc <$> qs)) with (item_view <$> (todo_of_doc <$> qs)).
  rewrite <- list_fmap_compose. reflexivity.
Qed.

(** X13. When no delivered document has a field named [id], the keys of the list
    are the document ids, in order; so distinct document ids give distinct
    keys. *)
Theorem page_keys_are_document_ids
    (be : Effect -> option Error) (s : AppState) (qs : list QueryDocumentSnapshot) :
  (forall d, d ∈ qs -> qd_data d !! lit "id" = None) ->
  NoDup (qd_id <$> qs) ->
  let v := render (state_of (run (onSnapshot_next qs) be s)) in
  iv_key <$> v_items v = (fun d => VStr (qd_id d)) <$> qs
  /\ NoDup (iv_key <$> v_items v).
Proof.
  intros Hfresh Hnodup. rewrite onSnapshot_next_run. unfold state_of, render.
  cbn [snd w_state v_items todos].
  assert (Hkeys : iv_key <$> map item_view (todo_of_doc <$> qs)
                  = (fun d => VStr (qd_id d)) <$> qs).
  { change (map item_view (todo_of_doc <$> qs)) with (item_view <$> (todo_of_doc <$> qs)).
    rewrite <- !list_fmap_compose. apply list_fmap_ext.
    intros i d Hd. cbn. apply get_prop_id_fresh, Hfresh.
    eapply list_elem_of_lookup_2, Hd. }
  split; [exact Hkeys|]. rewrite Hkeys.
  rewrite (list_fmap_compose qd_id VStr).
  assert (Inj (=) (=) VStr) by (intros a b [= ->]; reflexivity).
  apply (NoDup_fmap_2 VStr), Hnodup.
Qed.

(** X14. After a subscription error the loading message is gone and the list is
    what it was; when the mirror is empty (as when the first load fails) the
    page shows the empty message. *)
Theorem page_after_subscription_error
    (be : Effect -> option Error) (s : AppState) (error : Error) :
  let v := render (state_of (run (onSnapshot_error error) be s)) in
  v_loading_message v = false
  /\ (v_empty_message v = true <-> todos s = [])
  /\ v_items v = v_items (render s)
  /\ v_user v = v_user (render s)
  /\ v_input v = v_input (render s).
Proof.
  rewrite onSnapshot_error_run. unfold state_of, render.
  cbn [snd w_state v_loading_message v_empty_message v_items v_user v_input
       todos newTodo loading userId authReady negb andb].
  repeat split; try reflexivity; destruct (todos s); simpl; congruence.
Qed.


(** ** Step by step *)

Lemma atomically_bind {A B} (p : Prog A) (k : A -> Prog B)
    (be : Effect -> option Error) (w : World) :
  atomically (Async.bind p k) be w
  = bind (atomically p) (fun a => atomically (k a)) be w.
Proof.
  revert w. induction p as [[a|e]|h IH|f p IH|e p IH|e h IH]; intros w; cbn.
  - reflexivity.
  - reflexivity.
  - apply IH.
  - apply IH.
  - apply IH.
  - apply IH.
Qed.

Lemma atomically_try_catch {A} (p : Prog A) (handler : Error -> Prog A)
    (be : Effect -> option Error) (w : World) :
  atomically (Async.try_catch p handler) be w
  = try_catch (atomically p) (fun e => atomically (handler e)) be w.
Proof.
  revert w. induction p as [[a|e]|h IH|f p IH|e p IH|e h IH]; intros w; cbn.
  - reflexivity.
  - reflexivity.
  - apply IH.
  - apply IH.
  - apply IH.
  - apply IH.
Qed.

Ltac prog_simpl :=
  cbn [atomically exec Async.bind Async.try_catch Async.ret Async.get_state Async.modify
       Async.emit Async.await Async.console_error Async.lift Async.setTodos Async.setNewTodo
       Async.setLoading Async.setUserId Async.setAuthReady
       m_app m_listener m_pending m_log m_closed m_life w_state w_trace fst snd].

(** Cutting the handlers at their awaited calls changes nothing when every
    call is answered at once: run in one go, each cut handler is the handler
    itself. *)
Lemma atomically_handlers
    (g : Globals) (be : Effect -> option Error) (w : World) :
  (forall user,
     atomically (Async.onAuthStateChanged_callback g user) be w
     = onAuthStateChanged_callback g user be w)
  /\ atomically (Async.dataFetchingEffect g) be w = dataFetchingEffect g be w
  /\ (forall qs, atomically (Async.onSnapshot_next qs) be w = onSnapshot_next qs be w)
  /\ (forall error, atomically (Async.onSnapshot_error error) be w = onSnapshot_error error be w)
  /\ atomically (Async.handleAddTodo g) be w = handleAddTodo g be w
  /\ (forall id cur,
        atomically (Async.handleToggleTodo g id cur) be w = handleToggleTodo g id cur be w)
  /\ (forall id, atomically (Async.handleDeleteTodo g id) be w = handleDeleteTodo g id be w)
  /\ (forall value, atomically (Async.handleChange value) be w = handleChange value be w).
Proof.
  repeat apply conj.
  - intros [u|]; [reflexivity|].
    unfold Async.onAuthStateChanged_callback, onAuthStateChanged_callback.
    rewrite atomically_try_catch. unfold try_catch.
    destruct (truthy_opt (initialAuthToken g)); cbn [atomically Async.await];
      unfold await; match goal with |- context [be ?e] => destruct (be e) end; reflexivity.
  - unfold Async.dataFetchingEffect, dataFetchingEffect.
    rewrite atomically_bind. unfold bind, get_state. cbn [atomically Async.get_state].
    destruct (negb (authReady (w_state w)) || negb (truthy_opt (userId (w_state w))));
      [reflexivity|].
    unfold Async.lift, lift.
    destruct (collection _); reflexivity.
  - intros qs. reflexivity.
  - intros error. reflexivity.
  - unfold Async.handleAddTodo, handleAddTodo.
    rewrite atomically_bind. unfold bind at 1. cbn [atomically Async.emit].
    unfold emit at 1. rewrite atomically_bind. unfold bind at 1 2. unfold get_state.
    cbn [atomically Async.get_state w_state]. unfold bind at 1. cbn beta iota. cbn [w_state].
    destruct (JsString.truthy (JsString.trim (newTodo (w_state w)))
              && truthy_opt (userId (w_state w))); [|reflexivity].
    rewrite atomically_try_catch. unfold try_catch. unfold Async.lift, lift, bind.
    destruct (collection _); [|reflexivity].
    cbn [Async.bind atomically Async.await]. unfold await. cbn [w_state w_trace].
    match goal with |- context [be ?e] => destruct (be e) end; reflexivity.
  - intros id cur. unfold Async.handleToggleTodo, handleToggleTodo.
    rewrite atomically_bind. unfold bind, get_state. cbn [atomically Async.get_state].
    destruct (negb (truthy_opt (userId (w_state w)))); [reflexivity|].
    unfold Async.lift, lift. destruct (doc _); [|reflexivity].
    cbn [Async.bind]. rewrite atomically_try_catch. unfold try_catch.
    cbn [atomically Async.await].
    unfold await. match goal with |- context [be ?e] => destruct (be e) end; reflexivity.
  - intros id. unfold Async.handleDeleteTodo, handleDeleteTodo.
    rewrite atomically_bind. unfold bind, get_state. cbn [atomically Async.get_state].
    destruct (negb (truthy_opt (userId (w_state w)))); [reflexivity|].
    unfold Async.lift, lift. destruct (doc _); [|reflexivity].
    cbn [Async.bind]. rewrite atomically_try_catch. unfold try_catch.
    cbn [atomically Async.await].
    unfold await. match goal with |- context [be ?e] => destruct (be e) end; reflexivity.
  - intros value. reflexivity.
Qed.

(** ** What each handler does to the mounted component *)

Ltac ext_tac :=
  unfold extends; prog_simpl; rewrite ?app_nil_r, <- ?app_assoc;
  repeat apply conj; reflexivity.

Ltac write_kept :=
  unfold write; prog_simpl;
  (split; [left; split; [reflexivity | left; reflexivity] | left; split; reflexivity]).

Lemma quiet_done (c : Completion unit) : quiet (PRet c).
Proof. intros m. exists (m_app m), []. split; [ext_tac|]. split; [write_kept | reflexivity]. Qed.

Lemma quiet_log (msg : string) (err : Error) :
  quiet (Async.console_error msg err).
Proof.
  intros m. exists (m_app m), [EConsoleError msg err].
  split; [ext_tac|]. split; [write_kept | reflexivity].
Qed.

Lemma quiet_behaves (b : bool) (p : Prog unit) : quiet p -> behaves b p.
Proof.
  intros Hq m. destruct (Hq m) as (s' & out & Hext & [Hid Hmirror] & Hout).
  exists s', out, []. split; [exact Hext|]. split; [|split; [exact Hout | constructor]].
  split; [exact Hid|]. destruct Hmirror as [H|[H _]]; [left; exact H | discriminate H].
Qed.

Lemma behaves_weaken (b : bool) (p : Prog unit) : behaves false p -> behaves b p.
Proof.
  intros Hb m. destruct (Hb m) as (s' & out & new & Hext & [Hid Hmirror] & Hout & Hnew).
  exists s', out, new. split; [exact Hext|]. split; [|split; assumption].
  split; [exact Hid|]. destruct Hmirror as [H|[H _]]; [left; exact H | discriminate H].
Qed.

Section Behaviour.

Variable g : Globals.

Lemma behaves_auth (user : option User) :
  behaves false (Async.onAuthStateChanged_callback g user).
Proof.
  intros m. destruct user as [u|]; unfold Async.onAuthStateChanged_callback.
  - eexists _, [], []. split; [ext_tac|]. split; [|split; [reflexivity | constructor]].
    unfold write. prog_simpl.
    split; [right; split; [discriminate | reflexivity] | left; split; reflexivity].
  - destruct (truthy_opt (initialAuthToken g)); prog_simpl;
      (eexists (m_app m), [_], [_]; split; [ext_tac|]; split; [write_kept|];
       split; [reflexivity|]; constructor; [|constructor];
       intros [err|]; prog_simpl; [|apply quiet_done];
       intros m'; prog_simpl; eexists _, [_]; split; [ext_tac|];
       split; [|reflexivity]; unfold write; prog_simpl;
       split; [left; split; [reflexivity | right; reflexivity] | left; split; reflexivity]).
Qed.

Lemma behaves_snapshot_next (qs : list QueryDocumentSnapshot) :
  behaves true (Async.onSnapshot_next qs).
Proof.
  intros m. unfold Async.onSnapshot_next.
  eexists _, [], []. split; [ext_tac|]. split; [|split; [reflexivity | constructor]].
  unfold write. prog_simpl.
  split; [left; split; [reflexivity | left; reflexivity] | right; split; reflexivity].
Qed.

Lemma behaves_snapshot_error (error : Error) :
  behaves true (Async.onSnapshot_error error).
Proof.
  intros m. unfold Async.onSnapshot_error.
  eexists _, [_], []. split; [ext_tac|]. split; [|split; [reflexivity | constructor]].
  unfold write. prog_simpl.
  split; [left; split; [reflexivity | left; reflexivity] | right; split; reflexivity].
Qed.

Lemma behaves_change (value : list N) : behaves false (Async.handleChange value).
Proof.
  intros m. unfold Async.handleChange.
  eexists _, [], []. split; [ext_tac|]. split; [write_kept|].
  split; [reflexivity | constructor].
Qed.

Lemma behaves_add : behaves false (Async.handleAddTodo g).
Proof.
  intros m. unfold Async.handleAddTodo. prog_simpl.
  destruct (JsString.truthy (JsString.trim (newTodo (m_app m)))
            && truthy_opt (userId (m_app m))); prog_simpl.
  - destruct (collection _) as [c|e]; prog_simpl.
    + eexists (m_app m), [_; _], [_]. split; [ext_tac|]. split; [write_kept|].
      split; [reflexivity|]. constructor; [|constructor].
      intros [err|]; prog_simpl; [apply quiet_log|].
      intros m'. prog_simpl. eexists _, []. split; [ext_tac|].
      split; [write_kept | reflexivity].
    + eexists (m_app m), [_; _], []. split; [ext_tac|]. split; [write_kept|].
      split; [reflexivity | constructor].
  - eexists (m_app m), [_], []. split; [ext_tac|]. split; [write_kept|].
    split; [reflexivity | constructor].
Qed.

Lemma behaves_toggle (id cur : Value) :
  behaves false (Async.handleToggleTodo g id cur).
Proof.
  intros m. unfold Async.handleToggleTodo. prog_simpl.
  destruct (negb (truthy_opt (userId (m_app m)))); prog_simpl.
  - eexists (m_app m), [], []. split; [ext_tac|]. split; [write_kept|].
    split; [reflexivity | constructor].
  - destruct (doc _) as [d|e]; prog_simpl.
    + eexists (m_app m), [_], [_]. split; [ext_tac|]. split; [write_kept|].
      split; [reflexivity|]. constructor; [|constructor].
      intros [err|]; prog_simpl; [apply quiet_log | apply quiet_done].
    + eexists (m_app m), [], []. split; [ext_tac|]. split; [write_kept|].
      split; [reflexivity | constructor].
Qed.

Lemma behaves_delete (id : Value) : behaves false (Async.handleDeleteTodo g id).
Proof.
  intros m. unfold Async.handleDeleteTodo. prog_simpl.
  destruct (negb (truthy_opt (userId (m_app m)))); prog_simpl.
  - eexists (m_app m), [], []. split; [ext_tac|]. split; [write_kept|].
    split; [reflexivity | constructor].
  - destruct (doc _) as [d|e]; prog_simpl.
    + eexists (m_app m), [_], [_]. split; [ext_tac|]. split; [write_kept|].
      split; [reflexivity|]. constructor; [|constructor].
      intros [err|]; prog_simpl; [apply quiet_log | apply quiet_done].
    + eexists (m_app m), [], []. split; [ext_tac|]. split; [write_kept|].
      split; [reflexivity | constructor].
Qed.

(** The code of an enabled event behaves; snapshot writes need a listener. *)
Lemma program_behaves (m m0 : Machine) (ev : Event) (p : Prog unit) :
  Forall (fun ek => forall r, quiet (snd ek r)) (m_pending m) ->
  program_of g m ev = Some (p, m0) ->
  behaves (match m_listener m with Some _ => true | None => false end) p
  /\ m_app m0 = m_app m
  /\ m_listener m0 = m_listener m
  /\ m_log m0 = m_log m
  /\ m_closed m0 = m_closed m
  /\ m_life m0 = m_life m
  /\ Forall (fun ek => forall r, quiet (snd ek r)) (m_pending m0).
Proof.
  intros Hpend.
  destruct ev as [user|qs|error|value| |i|i|i r]; cbn [program_of].
  - intros [= <- <-].
    split; [apply behaves_weaken, behaves_auth | repeat apply conj; try reflexivity; assumption].
  - destruct (m_listener m) eqn:Hl; [|discriminate].
    intros [= <- <-].
    split; [apply behaves_snapshot_next | repeat apply conj; try reflexivity; assumption].
  - destruct (m_listener m) eqn:Hl; [|discriminate].
    intros [= <- <-].
    split; [apply behaves_snapshot_error | repeat apply conj; try reflexivity; assumption].
  - intros [= <- <-].
    split; [apply behaves_weaken, behaves_change | repeat apply conj; try reflexivity; assumption].
  - intros [= <- <-].
    split; [apply behaves_weaken, behaves_add | repeat apply conj; try reflexivity; assumption].
  - destruct (todos (m_app m) !! i) as [todo|]; [|discriminate].
    unfold TodoItem.handleToggle.
    intros [= <- <-].
    split; [apply behaves_weaken, behaves_toggle | repeat apply conj; try reflexivity; assumption].
  - destruct (todos (m_app m) !! i) as [todo|]; [|discriminate].
    unfold TodoItem.handleDelete.
    intros [= <- <-].
    split; [apply behaves_weaken, behaves_delete | repeat apply conj; try reflexivity; assumption].
  - destruct (m_pending m !! i) as [[e k]|] eqn:Hi; [|discriminate].
    intros [= <- <-]. cbn [m_app m_listener m_log m_closed m_life m_pending].
    split; [|repeat apply conj; try reflexivity; apply Forall_delete, Hpend].
    apply quiet_behaves.
    rewrite Forall_lookup in Hpend. apply (Hpend i (e, k) Hi r).
Qed.

Lemma listener_for_deps (s s' : AppState) :
  deps s' = deps s -> listener_for g s' = listener_for g s.
Proof. unfold deps, listener_for. intros [= -> ->]. reflexivity. Qed.

(** The effect, when it does not throw. *)
Lemma run_data_effect_fields (m m' : Machine) :
  run_data_effect g m = Some m' ->
  m_app m' = m_app m
  /\ m_listener m' = listener_for g (m_app m)
  /\ m_pending m' = m_pending m
  /\ m_log m' = m_log m ++ (EOnSnapshot <$> option_list (listener_for g (m_app m)))
  /\ m_closed m' = m_closed m
  /\ m_life m' = m_life m ++ (Opened <$> option_list (listener_for g (m_app m)))
  /\ (authReady (m_app m) && truthy_opt (userId (m_app m)) = true ->
      exists c, collection (todos_segments g (path_segment (userId (m_app m)))) = Normal c).
Proof.
  unfold run_data_effect, listener_for.
  destruct (authReady (m_app m)) eqn:Hr; [destruct (truthy_opt (userId (m_app m))) eqn:Ht|].
  - destruct (collection (todos_segments g (path_segment (userId (m_app m))))) as [c|e] eqn:Hc.
    + rewrite (dataFetchingEffect_subscribes g _ _ c Hr Ht Hc).
      intros [= <-]. cbn. repeat apply conj; eauto.
    + rewrite (dataFetchingEffect_throws g _ _ e Hr Ht Hc). discriminate.
  - rewrite dataFetchingEffect_idle by (rewrite Ht; apply orb_true_r).
    intros [= <-]. cbn. rewrite !app_nil_r. repeat apply conj; try reflexivity. discriminate.
  - rewrite dataFetchingEffect_idle by (rewrite Hr; reflexivity).
    intros [= <-]. cbn. rewrite !app_nil_r. repeat apply conj; try reflexivity. discriminate.
Qed.

(** Cleanup followed by the effect. *)
Lemma resubscribe_fields (m m' : Machine) :
  run_data_effect g (cleanup m) = Some m' ->
  m_app m' = m_app m
  /\ m_listener m' = listener_for g (m_app m)
  /\ m_pending m' = m_pending m
  /\ m_log m' = m_log m ++ (EOnSnapshot <$> option_list (listener_for g (m_app m)))
  /\ m_closed m' = m_closed m ++ option_list (m_listener m)
  /\ m_life m'
     = m_life m ++ (Closed <$> option_list (m_listener m))
       ++ (Opened <$> option_list (listener_for g (m_app m)))
  /\ (authReady (m_app m) && truthy_opt (userId (m_app m)) = true ->
      exists c, collection (todos_segments g (path_segment (userId (m_app m)))) = Normal c).
Proof.
  intros Hrun. destruct (run_data_effect_fields _ _ Hrun) as (Ha & Hl & Hp & Hlog & Hc & Hlf & Hcol).
  unfold cleanup in *. destruct (m_listener m) as [c|];
    cbn [m_app m_listener m_pending m_log m_closed m_life option_list fmap list_fmap app] in *;
    rewrite ?app_nil_r, <- ?app_assoc in *; repeat apply conj; assumption.
Qed.

(** The effect throws exactly when the session is ready, has an identity and
    [collection] throws on it. *)
Lemma run_data_effect_none (m : Machine) :
  run_data_effect g m = None
  <-> authReady (m_app m) = true /\ truthy_opt (userId (m_app m)) = true
      /\ exists e, collection (todos_segments g (path_segment (userId (m_app m)))) = Throw e.
Proof.
  unfold run_data_effect.
  destruct (authReady (m_app m)) eqn:Hr; [destruct (truthy_opt (userId (m_app m))) eqn:Ht|].
  - destruct (collection (todos_segments g (path_segment (userId (m_app m))))) as [c|e] eqn:Hc.
    + rewrite (dataFetchingEffect_subscribes g _ _ c Hr Ht Hc).
      split; [discriminate | intros (_ & _ & e & He); discriminate].
    + rewrite (dataFetchingEffect_throws g _ _ e Hr Ht Hc). split; eauto.
  - rewrite dataFetchingEffect_idle by (rewrite Ht; apply orb_true_r).
    split; [discriminate | intros (_ & H & _); discriminate].
  - rewrite dataFetchingEffect_idle by (rewrite Hr; reflexivity).
    split; [discriminate | intros (H & _); discriminate].
Qed.

End Behaviour.

(** ** The invariant *)

Lemma mount_inv (g : Globals) : Inv g (mount g).
Proof.
  unfold Inv, mount, listener_for. cbn.
  repeat apply conj; try reflexivity; try constructor; try discriminate.
  intros H. contradiction H. reflexivity.
Qed.

Lemma write_keeps_ready (b : bool) (s s' : AppState) :
  write b s s' ->
  (userId s <> None -> authReady s = true) ->
  userId s' <> None -> authReady s' = true.
Proof.
  intros [[[Hu [Hr|Hr]]|[_ Hr]] _] Hinv Hs'.
  - rewrite Hr. apply Hinv. rewrite <- Hu. exact Hs'.
  - exact Hr.
  - exact Hr.
Qed.

Lemma write_keeps_loading (b : bool) (s s' : AppState) :
  write b s s' ->
  (loading s = true -> todos s = []) ->
  loading s' = true -> todos s' = [].
Proof.
  intros [_ [[Ht Hl]|[_ Hl]]] Hinv Hs'.
  - rewrite Ht. apply Hinv. rewrite <- Hl. exact Hs'.
  - rewrite Hl in Hs'. discriminate.
Qed.

Lemma omap_subscribed_opened (l : option CollectionReference) :
  omap subscribed (EOnSnapshot <$> option_list l) = option_list l.
Proof. destruct l; reflexivity. Qed.

(** Closing the listener held extends the alternation of opens and closes. *)
Lemma life_closed (closed : list CollectionReference) (l : option CollectionReference) :
  ((closed ≫= fun c => [Opened c; Closed c]) ++ (Opened <$> option_list l))
  ++ (Closed <$> option_list l)
  = (closed ++ option_list l) ≫= fun c => [Opened c; Closed c].
Proof.
  rewrite bind_app, <- app_assoc. f_equal. destruct l; reflexivity.
Qed.

Lemma step_inv (g : Globals) (m m' : Machine) (ev : Event) :
  Inv g m -> step g m ev = Some m' -> Inv g m'.
Proof.
  intros (Hready & Hload & Hlis & Hcol & Hopen & Hnone & Hpend & Hlife). unfold step.
  destruct (program_of g m ev) as [[p m0]|] eqn:Hprog; [|discriminate].
  destruct (program_behaves g m m0 ev p Hpend Hprog)
    as (Hb & Happ0 & Hlis0 & Hlog0 & Hclosed0 & Hlife0 & Hpend0).
  destruct (Hb m0)
    as (s' & out & new & (Ha & Hl & Hp & Hlg & Hc & Hlf) & Hwrite & Hout & Hnew).
  rewrite Happ0 in Hwrite. rewrite Hlis0 in Hl. rewrite Hlog0 in Hlg.
  rewrite Hclosed0 in Hc. rewrite Hlife0 in Hlf.
  assert (Hready' : userId s' <> None -> authReady s' = true)
    by (eapply write_keeps_ready; eassumption).
  assert (Hload' : loading s' = true -> todos s' = [])
    by (eapply write_keeps_loading; eassumption).
  assert (Hsub : omap subscribed (m_log m ++ out) = omap subscribed (m_log m))
    by (rewrite omap_app, Hout, app_nil_r; reflexivity).
  assert (Hstill : omap subscribed (m_log m) = [] -> loading s' = true).
  { intros Hempty. pose proof (Hnone Hempty) as Hloading.
    rewrite Hempty in Hopen. symmetry in Hopen. apply app_eq_nil in Hopen as [_ Hno].
    destruct (m_listener m); [discriminate Hno|].
    destruct Hwrite as [_ [[_ Hsame]|[Hfalse _]]]; [congruence | discriminate Hfalse]. }
  assert (Hpend' : Forall (fun ek => forall r, quiet (snd ek r)) (m_pending m0 ++ new))
    by (apply Forall_app; split; assumption).
  unfold commit. rewrite Ha. destruct (decide (deps s' = deps (m_app m))) as [Hdeps|Hdeps].
  - intros [= <-]. unfold Inv. rewrite Ha, Hl, Hp, Hlg, Hc, Hlf, Hsub.
    repeat apply conj; try assumption.
    + rewrite Hlis. symmetry. apply listener_for_deps, Hdeps.
    + unfold deps in Hdeps. injection Hdeps as -> ->. exact Hcol.
  - intros Hrun.
    destruct (resubscribe_fields g (exec p m0) m' Hrun)
      as (Ha' & Hl' & Hp' & Hlg' & Hc' & Hlf' & Hcol').
    unfold Inv. rewrite Ha', Hl', Hp', Hlg', Hc', Hlf', Ha, Hl, Hp, Hlg, Hc, Hlf.
    rewrite Ha in Hcol'.
    rewrite !omap_app, Hout, app_nil_r, omap_subscribed_opened.
    repeat apply conj; try assumption; try reflexivity.
    + rewrite Hopen, <- app_assoc. reflexivity.
    + intros Hempty. apply app_eq_nil in Hempty as [Hempty _]. apply Hstill, Hempty.
    + rewrite Hlife, app_assoc, life_closed. reflexivity.
Qed.

Lemma steps_inv (g : Globals) (evs : list Event) (m m' : Machine) :
  Inv g m -> steps g m evs = Some m' -> Inv g m'.
Proof.
  revert m. induction evs as [|ev evs IH]; intros m Hinv; cbn [steps].
  - intros [= <-]. exact Hinv.
  - destruct (step g m ev) as [m1|] eqn:Hstep; [|discriminate].
    apply IH. eapply step_inv; eassumption.
Qed.

Lemma reachable_inv (g : Globals) (evs : list Event) (m : Machine) :
  steps g (mount g) evs = Some m -> Inv g m.
Proof. apply steps_inv, mount_inv. Qed.

(** What is open after an alternation of opens and closes is what was
    opened last. *)
Lemma open_listeners_alternating
    (closed : list CollectionReference) (l : option CollectionReference) :
  open_listeners ((closed ≫= fun c => [Opened c; Closed c]) ++ (Opened <$> option_list l))
  = option_list l.
Proof.
  unfold open_listeners. rewrite fold_left_app.
  assert (Hclosed : fold_left (fun open ev =>
                                 match ev with
                                 | Opened c => open ++ [c]
                                 | Closed c => remove_first c open
                                 end) (closed ≫= fun c => [Opened c; Closed c]) [] = []).
  { induction closed as [|c closed IH]; [reflexivity|].
    cbn. rewrite decide_True by reflexivity. exact IH. }
  rewrite Hclosed. destruct l; reflexivity.
Qed.

(** ** The mounted component between events *)

(** X16. In every state the mounted component can reach, an identity in the
    [userId] cell means the session is marked ready: the two are written
    together, and readiness is never taken back. *)
Theorem ready_whenever_identity (g : Globals) (evs : list Event) (m : Machine) :
  steps g (mount g) evs = Some m ->
  userId (m_app m) <> None ->
  authReady (m_app m) = true.
Proof. intros Hrun. apply (reachable_inv g evs m Hrun). Qed.

(** X17. In every reachable state with a non-empty identity, [collection]
    makes a reference from it, the listener held is on that collection, and
    of all the listeners opened so far it is the only one not unsubscribed;
    with no identity no listener is held and none is open.  No listener of
    an earlier identity survives a change of identity. *)
Theorem listener_follows_identity (g : Globals) (evs : list Event) (m : Machine) :
  steps g (mount g) evs = Some m ->
  (forall u, userId (m_app m) = Some u -> u <> [] ->
     exists c,
       collection (todos_segments g u) = Normal c
       /\ m_listener m = Some c
       /\ open_listeners (m_life m) = [c]
       /\ (single_segment (appId g) = true -> single_segment u = true ->
           c = {| c_path := [lit "artifacts"; appId g; lit "users"; u; lit "todos"] |}))
  /\ (identity_absent (m_app m) ->
      m_listener m = None /\ open_listeners (m_life m) = []).
Proof.
  intros Hrun.
  destruct (reachable_inv g evs m Hrun) as (Hready & _ & Hlis & Hcol & _ & _ & _ & Hlife).
  rewrite Hlife, open_listeners_alternating, Hlis. unfold listener_for. split.
  - intros u Hu Hne. destruct (truthy_present _ u Hu Hne) as [Ht Hp].
    assert (Hr : authReady (m_app m) = true) by (apply Hready; rewrite Hu; discriminate).
    destruct Hcol as [c Hc]; [rewrite Hr, Ht; reflexivity|].
    rewrite Hr, Ht, Hc. cbn [andb option_list]. rewrite Hp in Hc.
    exists c. repeat apply conj; try reflexivity; [exact Hc|].
    intros Ha Hsu. rewrite (collection_valid g u Ha Hsu) in Hc. injection Hc as <-. reflexivity.
  - intros Habs%falsy_absent. rewrite Habs, andb_false_r. split; reflexivity.
Qed.

(** X18. In every reachable state the subscribe and unsubscribe calls made so
    far are, in the order they were made: for each listener the cleanup has
    closed, its opening directly followed by its closing, and last the
    opening of the listener still held, if one is.  So each listener is
    closed before the next is opened, and none is left open but the one
    held. *)
Theorem listeners_closed_before_reopened (g : Globals) (evs : list Event) (m : Machine) :
  steps g (mount g) evs = Some m ->
  m_life m
  = (m_closed m ≫= fun c => [Opened c; Closed c])
    ++ (Opened <$> option_list (m_listener m))
  /\ omap subscribed (m_log m) = m_closed m ++ option_list (m_listener m)
  /\ open_listeners (m_life m) = option_list (m_listener m).
Proof.
  intros Hrun.
  destruct (reachable_inv g evs m Hrun) as (_ & _ & _ & _ & Hlog & _ & _ & Hlife).
  repeat apply conj; try assumption.
  rewrite Hlife. apply open_listeners_alternating.
Qed.

(** X19. In every reachable state a page that shows the loading message lists no
    items. *)
Theorem loading_page_lists_nothing (g : Globals) (evs : list Event) (m : Machine) :
  steps g (mount g) evs = Some m ->
  v_loading_message (render (m_app m)) = true ->
  v_items (render (m_app m)) = [].
Proof.
  intros Hrun Hloading. destruct (reachable_inv g evs m Hrun) as (_ & Hload & _).
  unfold render in *. cbn [v_loading_message v_items] in *.
  rewrite (Hload Hloading). reflexivity.
Qed.

(** X20. As long as no subscription has been opened the page shows the loading
    message: nothing but a snapshot callback ends loading, so a session that
    never gets an identity (a failed sign-in, say) keeps saying it is
    loading. *)
Theorem loading_until_subscribed (g : Globals) (evs : list Event) (m : Machine) :
  steps g (mount g) evs = Some m ->
  omap subscribed (m_log m) = [] ->
  v_loading_message (render (m_app m)) = true.
Proof.
  intros Hrun Hnone. destruct (reachable_inv g evs m Hrun) as (_ & _ & _ & _ & _ & Hstill & _).
  exact (Hstill Hnone).
Qed.

Lemma cleanup_app (m : Machine) : m_app (cleanup m) = m_app m.
Proof. unfold cleanup. destruct (m_listener m); reflexivity. Qed.

Lemma commit_same (g : Globals) (before : AppState) (m : Machine) :
  deps (m_app m) = deps before -> commit g before m = Some m.
Proof. intros H. unfold commit. rewrite decide_True by exact H. reflexivity. Qed.

(** X21. With an identity from which [collection] makes a reference, a create
    that is fulfilled clears the input as it is at that moment: text typed
    while the request was pending is lost.  A rejected create leaves that
    text in place. *)
Theorem fulfilled_create_clears_later_input
    (g : Globals) (m : Machine) (u v : list N) (items : CollectionReference) :
  userId (m_app m) = Some u -> u <> [] ->
  JsString.trim (newTodo (m_app m)) <> [] ->
  collection (todos_segments g u) = Normal items ->
  exists m1 m2 m3,
    step g m Submit = Some m1
    /\ m_log m1
       = m_log m ++ [EPreventDefault;
                     EAddDoc items {[ lit "text" := VStr (JsString.trim (newTodo (m_app m)));
                                      lit "completed" := VBool false ]}]
    /\ step g m1 (InputChange v) = Some m2
    /\ newTodo (m_app m2) = v
    /\ step g m2 (Settled (length (m_pending m)) None) = Some m3
    /\ newTodo (m_app m3) = []
    /\ forall err, exists m3',
         step g m2 (Settled (length (m_pending m)) (Some err)) = Some m3'
         /\ newTodo (m_app m3') = v.
Proof.
  intros Hu Hne Htext%JsStringFacts.truthy_nonempty Hitems.
  destruct (truthy_present _ u Hu Hne) as [Ht Hp].
  eexists _, _, _. split.
  { unfold step. cbn [program_of]. unfold Async.handleAddTodo. prog_simpl.
    rewrite Htext, Ht, Hp, Hitems. cbn [andb]. prog_simpl.
    rewrite commit_same by reflexivity. reflexivity. }
  split; [cbn [m_log]; rewrite <- app_assoc; reflexivity|].
  split.
  { unfold step. cbn [program_of]. unfold Async.handleChange. prog_simpl.
    rewrite commit_same by reflexivity. reflexivity. }
  split; [reflexivity|]. split.
  { unfold step. cbn [program_of m_pending]. rewrite list_lookup_middle by reflexivity.
    prog_simpl. rewrite commit_same by reflexivity. reflexivity. }
  split; [reflexivity|].
  intros err. eexists. split.
  { unfold step. cbn [program_of m_pending]. rewrite list_lookup_middle by reflexivity.
    prog_simpl. rewrite commit_same by reflexivity. reflexivity. }
  reflexivity.
Qed.

(** X22. A notification that carries a different, non-empty identity from
    which [collection] makes a reference makes the data effect run again:
    the listener held so far is unsubscribed and then one on the new
    identity's collection is opened.  The mirror and the loading flag are
    not reset: the page goes on showing the previous identity's items until
    the new listener delivers. *)
Theorem identity_change_resubscribes
    (g : Globals) (m : Machine) (user : User) (c : CollectionReference) :
  userId (m_app m) <> Some (uid user) -> uid user <> [] ->
  collection (todos_segments g (uid user)) = Normal c ->
  exists m',
    step g m (AuthStateChanged (Some user)) = Some m'
    /\ userId (m_app m') = Some (uid user)
    /\ authReady (m_app m') = true
    /\ m_closed m' = m_closed m ++ option_list (m_listener m)
    /\ m_listener m' = Some c
    /\ m_log m' = m_log m ++ [EOnSnapshot c]
    /\ m_life m' = m_life m ++ (Closed <$> option_list (m_listener m)) ++ [Opened c]
    /\ todos (m_app m') = todos (m_app m)
    /\ loading (m_app m') = loading (m_app m).
Proof.
  intros Hother Hne Hc.
  unfold step. cbn [program_of]. unfold Async.onAuthStateChanged_callback. prog_simpl.
  unfold commit. prog_simpl.
  rewrite decide_False by (unfold deps; cbn [authReady userId]; intros [= _ H]; auto).
  assert (Hfor : forall s, listener_for g
                   {| todos := todos s; newTodo := newTodo s; loading := loading s;
                      userId := Some (uid user); authReady := true |}
                 = Some c).
  { intros s. unfold listener_for. cbn [authReady userId truthy_opt path_segment andb].
    rewrite Hc. destruct (uid user); [contradiction Hne; reflexivity | reflexivity]. }
  match goal with
  | |- context [run_data_effect g (cleanup ?m1)] =>
      destruct (run_data_effect g (cleanup m1)) as [m'|] eqn:Hrun;
      [destruct (resubscribe_fields g m1 m' Hrun) as (Ha & Hl & Hp & Hlg & Hcl & Hlf & _)
      |apply run_data_effect_none in Hrun as (_ & _ & e & He)]
  end.
  - cbn [m_app m_listener m_pending m_log m_closed m_life] in *.
    rewrite Hfor in *. exists m'. rewrite Ha, Hl, Hlg, Hcl, Hlf.
    repeat apply conj; reflexivity.
  - rewrite cleanup_app in He. cbn [m_app userId path_segment] in He.
    rewrite Hc in He. discriminate.
Qed.

(** X23. A notification that repeats the identity of a ready session changes
    nothing the effect depends on: the listener is kept, nothing is
    unsubscribed and nothing is sent. *)
Theorem identity_repeat_keeps_listener (g : Globals) (m : Machine) (user : User) :
  userId (m_app m) = Some (uid user) -> authReady (m_app m) = true ->
  exists m',
    step g m (AuthStateChanged (Some user)) = Some m'
    /\ m_listener m' = m_listener m
    /\ m_closed m' = m_closed m
    /\ m_log m' = m_log m
    /\ m_pending m' = m_pending m
    /\ userId (m_app m') = userId (m_app m)
    /\ todos (m_app m') = todos (m_app m).
Proof.
  intros Hu Hr.
  unfold step. cbn [program_of]. unfold Async.onAuthStateChanged_callback. prog_simpl.
  rewrite commit_same by (unfold deps; cbn [m_app authReady userId]; rewrite Hu, Hr; reflexivity).
  eexists. split; [reflexivity|].
  cbn [m_app m_listener m_pending m_log m_closed userId todos].
  rewrite Hu. repeat apply conj; reflexivity.
Qed.

(** X24. A no-identity notification in a ready session leaves identity, mirror
    and listener as they are, whatever becomes of the sign-in it starts:
    after a sign-out the component keeps the signed-out identity and keeps
    listening to its collection. *)
Theorem sign_out_keeps_listener
    (g : Globals) (m : Machine) (outcome : option Error) :
  authReady (m_app m) = true ->
  exists m1 m2,
    step g m (AuthStateChanged None) = Some m1
    /\ step g m1 (Settled (length (m_pending m)) outcome) = Some m2
    /\ userId (m_app m2) = userId (m_app m)
    /\ todos (m_app m2) = todos (m_app m)
    /\ m_listener m2 = m_listener m
    /\ m_closed m2 = m_closed m
    /\ List.filter is_request (m_log m2)
       = List.filter is_request (m_log m) ++ [sign_in_request g].
Proof.
  intros Hr.
  assert (Hfirst : exists k,
            step g m (AuthStateChanged None)
            = Some {| m_app := m_app m; m_listener := m_listener m;
                      m_pending := m_pending m ++ [(sign_in_request g, k)];
                      m_log := m_log m ++ [sign_in_request g];
                      m_closed := m_closed m; m_life := m_life m |}
            /\ k None = PRet (Normal tt)
            /\ forall err,
                 k (Some err)
                 = Async.bind (Async.console_error "Error signing in:" err)
                              (fun _ => Async.setAuthReady true)).
  { unfold step, sign_in_request. cbn [program_of].
    unfold Async.onAuthStateChanged_callback.
    destruct (truthy_opt (initialAuthToken g)); prog_simpl;
      rewrite commit_same by reflexivity; eexists;
      (split; [reflexivity | split; [reflexivity | intros; reflexivity]]). }
  destruct Hfirst as (k & Hstep & Hk0 & Hk1).
  assert (Hreq : List.filter is_request [sign_in_request g] = [sign_in_request g])
    by (unfold sign_in_request; destruct (truthy_opt (initialAuthToken g)); reflexivity).
  destruct outcome as [err|].
  - eexists _, _. split; [exact Hstep|]. split.
    { unfold step. cbn [program_of m_pending]. rewrite list_lookup_middle by reflexivity.
      rewrite Hk1. prog_simpl.
      rewrite commit_same
        by (unfold deps; cbn [m_app authReady userId]; rewrite Hr; reflexivity).
      reflexivity. }
    cbn [m_app m_listener m_pending m_log m_closed userId todos].
    rewrite !List.filter_app, Hreq. cbn [List.filter is_request]. rewrite app_nil_r.
    repeat apply conj; reflexivity.
  - eexists _, _. split; [exact Hstep|]. split.
    { unfold step. cbn [program_of m_pending]. rewrite list_lookup_middle by reflexivity.
      rewrite Hk0. prog_simpl. rewrite commit_same by reflexivity. reflexivity. }
    cbn [m_app m_listener m_pending m_log m_closed userId todos].
    rewrite !List.filter_app, Hreq.
    repeat apply conj; reflexivity.
Qed.

(** ** Module initialisation *)

(** X25. Loading the module makes its calls in the order of the source and
    stops at the first that throws: every call made before the last
    succeeded, and calls are left out only when the last one made threw.
    What [JSON.parse] throws is not caught (it is outside the [try]) and
    nothing is logged; what one of the four calls of the [try] block throws
    is caught and logged, once.  A handle is assigned exactly when every
    call of the block up to its own succeeded, so a throwing [setLogLevel]
    is logged although all three handles are assigned. *)
Theorem initialisation_stops_at_first_failure (throws : InitCall -> option Error) :
  let r := load_module throws in
  l_calls r `prefix_of` init_order
  /\ (forall c, c ∈ removelast (l_calls r) -> throws c = None)
  /\ (l_calls r <> init_order ->
      exists c e, last (l_calls r) = Some c /\ throws c = Some e)
  /\ (forall e, l_result r = Throw e <-> throws CJsonParse = Some e)
  /\ l_log r
     = match last (l_calls r) with
       | Some CJsonParse | None => []
       | Some c =>
           match throws c with
           | Some e => [EConsoleError "Error initializing Firebase:" e]
           | None => []
           end
       end
  /\ (forall h, l_result r = Normal h ->
        (h_app h = true <-> throws CInitializeApp = None)
        /\ (h_db h = true <-> throws CInitializeApp = None /\ throws CGetFirestore = None)
        /\ (h_auth h = true <->
            throws CInitializeApp = None /\ throws CGetFirestore = None
            /\ throws CGetAuth = None)).
Proof.
  unfold load_module, init_order.
  destruct (throws CJsonParse) as [e0|] eqn:H0;
    [|destruct (throws CInitializeApp) as [e1|] eqn:H1;
      [|destruct (throws CGetFirestore) as [e2|] eqn:H2;
        [|destruct (throws CGetAuth) as [e3|] eqn:H3;
          [|destruct (throws CSetLogLevel) as [e4|] eqn:H4]]]];
    cbn [l_calls l_result l_log last removelast];
    rewrite ?H1, ?H2, ?H3, ?H4;
    (split; [eexists; reflexivity|]);
    (split; [intros c Hc; trace_mem Hc; subst c; assumption|]);
    (split; [intros Hcalls; try (contradiction Hcalls; reflexivity); eauto|]);
    (split; [intros e; split; intros H; congruence|]);
    (split; [reflexivity|]);
    intros h [= <-]; cbn [h_app h_db h_auth];
    repeat apply conj; try (intros; congruence); try (intros (? & ?); congruence);
    try (intros (? & ? & ?); congruence); auto.
Qed.

(** ** The mirror after a snapshot *)

(** X26. A snapshot notification makes the mirror exactly the items built from
    the delivered documents, in delivery order; what the mirror held before
    plays no part, and an old item that was not delivered is gone.  The item
    of a document without a field named [id] is its fields together with
    the document id under [id]; the item of a document that has such a field
    is its fields alone. *)
Theorem snapshot_replaces_whole_mirror
    (be : Effect -> option Error) (s : AppState) (qs : list QueryDocumentSnapshot) :
  let r := run (onSnapshot_next qs) be s in
  todos (state_of r) = todo_of_doc <$> qs
  /\ (forall d, qd_data d !! lit "id" = None ->
        todo_of_doc d = <[ lit "id" := VStr (qd_id d) ]> (qd_data d))
  /\ (forall d v, qd_data d !! lit "id" = Some v -> todo_of_doc d = qd_data d)
  /\ (forall s', todos (state_of (run (onSnapshot_next qs) be s')) = todos (state_of r))
  /\ (forall t, t ∈ todos s -> (forall d, d ∈ qs -> t <> todo_of_doc d) ->
                t ∉ todos (state_of r))
  /\ loading (state_of r) = false
  /\ trace_of r = []
  /\ result_of r = Normal tt.
Proof.
  cbv zeta. rewrite onSnapshot_next_run.
  unfold state_of, trace_of, result_of. cbn [fst snd w_state w_trace todos loading].
  repeat apply conj; try reflexivity.
  - apply todo_of_doc_fresh_id.
  - intros d v Hown. unfold todo_of_doc, object_spread. apply map_eq. intros k.
    destruct (qd_data d !! k) as [x|] eqn:Hk.
    + apply lookup_union_Some_l, Hk.
    + rewrite lookup_union_r by exact Hk. apply lookup_singleton_ne. congruence.
  - intros s'. rewrite onSnapshot_next_run. reflexivity.
  - intros t _ Hfresh (d & -> & Hd)%list_elem_of_fmap. exact (Hfresh d Hd eq_refl).
Qed.

(** ** Further instances on the sample data *)

Lemma delete_issues_one_delete_witness :
  userId signed_in = Some (lit "u1")
  /\ lit "u1" <> []
  /\ doc (todos_segments plain_globals (lit "u1") ++ [VStr (lit "x1")])
     = Normal (u1_doc (lit "x1"))
  /\ List.filter is_request
       (trace_of (run (handleDeleteTodo plain_globals (VStr (lit "x1"))) reject_all signed_in))
     = [EDeleteDoc (u1_doc (lit "x1"))].
Proof.
  split; [reflexivity|]. split; [discriminate|]. split; [reflexivity|].
  exact (proj1 (delete_issues_one_delete plain_globals reject_all signed_in
                  (lit "u1") (VStr (lit "x1")) (u1_doc (lit "x1"))
                  eq_refl ltac:(discriminate) eq_refl)).
Defined.

Lemma invalid_reference_escapes_toggle_and_delete_witness :
  userId signed_in = Some (lit "u1")
  /\ lit "u1" <> []
  /\ doc (todos_segments plain_globals (lit "u1") ++ [VStr (lit "a/b")])
     = Throw (MkError "Invalid document reference. Document references must have an even number of segments.")
  /\ trace_of (run (handleDeleteTodo plain_globals (VStr (lit "a/b"))) accept_all signed_in)
     = [].
Proof.
  split; [reflexivity|]. split; [discriminate|]. split; [reflexivity|].
  exact (f_equal trace_of
           (proj2 (invalid_reference_escapes_toggle_and_delete plain_globals accept_all
                     signed_in (lit "u1") (VStr (lit "a/b")) (VBool false) _
                     eq_refl ltac:(discriminate) eq_refl))).
Defined.

Lemma invalid_collection_is_logged_by_add_witness :
  userId signed_in = Some (lit "u1")
  /\ lit "u1" <> []
  /\ JsString.trim (newTodo signed_in) <> []
  /\ collection (todos_segments blank_app_globals (lit "u1"))
     = Throw (MkError "Invalid collection reference. Collection references must have an odd number of segments.")
  /\ List.filter is_request
       (trace_of (run (handleAddTodo blank_app_globals) accept_all signed_in))
     = [].
Proof.
  split; [reflexivity|]. split; [discriminate|]. split; [discriminate|].
  split; [reflexivity|].
  exact (f_equal (fun r => List.filter is_request (trace_of r))
           (invalid_collection_is_logged_by_add blank_app_globals accept_all signed_in
              (lit "u1") _ eq_refl ltac:(discriminate) ltac:(discriminate) eq_refl)).
Defined.

Lemma sign_in_fulfilled_writes_nothing_witness :
  accept_all (sign_in_request token_globals) = None
  /\ state_of (run (onAuthStateChanged_callback token_globals None) accept_all signed_out)
     = signed_out
  /\ authReady signed_out = false.
Proof.
  split; [reflexivity|]. split; [|reflexivity].
  exact (proj1 (sign_in_fulfilled_writes_nothing token_globals accept_all signed_out eq_refl)).
Defined.

Lemma add_ignores_surrounding_whitespace_witness :
  forallb JsString.is_trimmable (lit "  ") = true
  /\ forallb JsString.is_trimmable (lit " ") = true
  /\ newTodo signed_in = lit "  " ++ newTodo signed_in_clean ++ lit " "
  /\ userId signed_in = userId signed_in_clean
  /\ trace_of (run (handleAddTodo plain_globals) accept_all signed_in)
     = trace_of (run (handleAddTodo plain_globals) accept_all signed_in_clean).
Proof.
  split; [reflexivity|]. split; [reflexivity|]. split; [reflexivity|]. split; [reflexivity|].
  exact (add_ignores_surrounding_whitespace plain_globals accept_all signed_in_clean signed_in
           (lit "  ") (lit " ") eq_refl eq_refl eq_refl eq_refl).
Defined.

Lemma checkbox_updates_its_document_witness :
  userId signed_in = Some (lit "u1")
  /\ lit "u1" <> []
  /\ qd_data eggs_doc !! lit "id" = None
  /\ doc (todos_segments plain_globals (lit "u1") ++ [VStr (qd_id eggs_doc)])
     = Normal (u1_doc (lit "x2"))
  /\ List.filter is_request
       (trace_of (run (TodoItem.handleToggle (handleToggleTodo plain_globals)
                         (todo_of_doc eggs_doc))
                      accept_all signed_in))
     = [EUpdateDoc (u1_doc (lit "x2")) {[ lit "completed" := VBool false ]}].
Proof.
  split; [reflexivity|]. split; [discriminate|]. split; [reflexivity|].
  split; [reflexivity|].
  exact (proj1 (checkbox_updates_its_document plain_globals accept_all signed_in (lit "u1")
                  eggs_doc (u1_doc (lit "x2")) eq_refl ltac:(discriminate) eq_refl eq_refl)).
Defined.

Lemma delete_button_deletes_its_document_witness :
  userId signed_in = Some (lit "u1")
  /\ lit "u1" <> []
  /\ qd_data milk_doc !! lit "id" = None
  /\ doc (todos_segments plain_globals (lit "u1") ++ [VStr (qd_id milk_doc)])
     = Normal (u1_doc (lit "x1"))
  /\ List.filter is_request
       (trace_of (run (TodoItem.handleDelete (handleDeleteTodo plain_globals)
                         (todo_of_doc milk_doc))
                      accept_all signed_in))
     = [EDeleteDoc (u1_doc (lit "x1"))].
Proof.
  split; [reflexivity|]. split; [discriminate|]. split; [reflexivity|].
  split; [reflexivity|].
  exact (proj1 (delete_button_deletes_its_document plain_globals accept_all signed_in
                  (lit "u1") milk_doc (u1_doc (lit "x1"))
                  eq_refl ltac:(discriminate) eq_refl eq_refl)).
Defined.

Lemma own_id_field_redirects_clicks_witness :
  userId signed_in = Some (lit "u1")
  /\ lit "u1" <> []
  /\ qd_data foreign_doc !! lit "id" = Some (VStr (lit "zz"))
  /\ qd_id foreign_doc = lit "x3"
  /\ omap (fun e => match e with
                    | EUpdateDoc ref _ | EDeleteDoc ref => Some ref
                    | _ => None
                    end)
          (trace_of (run (TodoItem.handleToggle (handleToggleTodo plain_globals)
                            (todo_of_doc foreign_doc))
                         accept_all signed_in)
           ++ trace_of (run (TodoItem.handleDelete (handleDeleteTodo plain_globals)
                               (todo_of_doc foreign_doc))
                            accept_all signed_in))
     = [u1_doc (lit "zz"); u1_doc (lit "zz")].
Proof.
  split; [reflexivity|]. split; [discriminate|]. split; [reflexivity|]. split; [reflexivity|].
  exact (proj1 (proj1 (own_id_field_redirects_clicks plain_globals accept_all signed_in
                         (lit "u1") foreign_doc (VStr (lit "zz"))
                         eq_refl ltac:(discriminate) eq_refl))).
Defined.

Lemma sample_docs_fresh :
  forall d, d ∈ [milk_doc; eggs_doc] -> qd_data d !! lit "id" = None.
Proof. intros d Hd. trace_mem Hd; subst d; reflexivity. Qed.

Lemma sample_docs_distinct : NoDup (qd_id <$> [milk_doc; eggs_doc]).
Proof.
  apply NoDup_cons. split; [|apply NoDup_singleton].
  intros H. trace_mem H.
Qed.

Lemma page_keys_are_document_ids_witness :
  (forall d, d ∈ [milk_doc; eggs_doc] -> qd_data d !! lit "id" = None)
  /\ NoDup (qd_id <$> [milk_doc; eggs_doc])
  /\ iv_key <$> v_items (render (state_of (run (onSnapshot_next [milk_doc; eggs_doc])
                                              accept_all signed_out)))
     = [VStr (lit "x1"); VStr (lit "x2")].
Proof.
  split; [exact sample_docs_fresh|]. split; [exact sample_docs_distinct|].
  exact (proj1 (page_keys_are_document_ids accept_all signed_out [milk_doc; eggs_doc]
                  sample_docs_fresh sample_docs_distinct)).
Defined.

Lemma sample_run :
  steps plain_globals (mount plain_globals) sample_events = Some sample_final.
Proof. vm_compute. reflexivity. Qed.

Lemma failed_run :
  steps plain_globals (mount plain_globals) failed_sign_in = Some failed_final.
Proof. vm_compute. reflexivity. Qed.

Lemma switch_run :
  steps plain_globals (mount plain_globals) identity_switch = Some switch_final.
Proof. vm_compute. reflexivity. Qed.

Lemma ready_whenever_identity_witness :
  steps plain_globals (mount plain_globals) sample_events = Some sample_final
  /\ userId (m_app sample_final) <> None
  /\ authReady (m_app sample_final) = true.
Proof.
  split; [exact sample_run|]. split; [discriminate|].
  apply (ready_whenever_identity plain_globals sample_events sample_final sample_run).
  discriminate.
Defined.

Lemma listener_follows_identity_witness :
  steps plain_globals (mount plain_globals) identity_switch = Some switch_final
  /\ userId (m_app switch_final) = Some (lit "u2")
  /\ m_closed switch_final = [u1_todos]
  /\ exists c,
       collection (todos_segments plain_globals (lit "u2")) = Normal c
       /\ m_listener switch_final = Some c
       /\ open_listeners (m_life switch_final) = [c].
Proof.
  split; [exact switch_run|]. split; [reflexivity|]. split; [reflexivity|].
  destruct (proj1 (listener_follows_identity plain_globals identity_switch switch_final
                     switch_run)
              (lit "u2") eq_refl ltac:(discriminate))
    as (c & Hc & Hl & Ho & _).
  exists c. repeat apply conj; assumption.
Defined.

Lemma listeners_closed_before_reopened_witness :
  steps plain_globals (mount plain_globals) identity_switch = Some switch_final
  /\ m_closed switch_final = [u1_todos]
  /\ m_life switch_final
     = [Opened u1_todos; Closed u1_todos;
        Opened {| c_path := [lit "artifacts"; lit "default-app-id"; lit "users"; lit "u2";
                             lit "todos"] |}]
  /\ m_life switch_final
     = (m_closed switch_final ≫= fun c => [Opened c; Closed c])
       ++ (Opened <$> option_list (m_listener switch_final)).
Proof.
  split; [exact switch_run|]. split; [reflexivity|]. split; [reflexivity|].
  exact (proj1 (listeners_closed_before_reopened plain_globals identity_switch switch_final
                  switch_run)).
Defined.

Lemma loading_page_lists_nothing_witness :
  steps plain_globals (mount plain_globals) failed_sign_in = Some failed_final
  /\ v_loading_message (render (m_app failed_final)) = true
  /\ v_items (render (m_app failed_final)) = [].
Proof.
  split; [exact failed_run|]. split; [reflexivity|].
  exact (loading_page_lists_nothing plain_globals failed_sign_in failed_final failed_run
           eq_refl).
Defined.

Lemma loading_until_subscribed_witness :
  steps plain_globals (mount plain_globals) failed_sign_in = Some failed_final
  /\ authReady (m_app failed_final) = true
  /\ omap subscribed (m_log failed_final) = []
  /\ v_loading_message (render (m_app failed_final)) = true.
Proof.
  split; [exact failed_run|]. split; [reflexivity|]. split; [reflexivity|].
  exact (loading_until_subscribed plain_globals failed_sign_in failed_final failed_run
           eq_refl).
Defined.

Lemma fulfilled_create_clears_later_input_witness :
  userId (m_app signed_in_machine) = Some (lit "u1")
  /\ lit "u1" <> []
  /\ JsString.trim (newTodo (m_app signed_in_machine)) <> []
  /\ collection (todos_segments plain_globals (lit "u1")) = Normal u1_todos
  /\ exists m1 m2 m3,
       step plain_globals signed_in_machine Submit = Some m1
       /\ step plain_globals m1 (InputChange (lit "feed cat")) = Some m2
       /\ newTodo (m_app m2) = lit "feed cat"
       /\ step plain_globals m2 (Settled 0 None) = Some m3
       /\ newTodo (m_app m3) = [].
Proof.
  split; [reflexivity|]. split; [discriminate|]. split; [discriminate|].
  split; [reflexivity|].
  destruct (fulfilled_create_clears_later_input plain_globals signed_in_machine
              (lit "u1") (lit "feed cat") u1_todos
              eq_refl ltac:(discriminate) ltac:(discriminate) eq_refl)
    as (m1 & m2 & m3 & H1 & _ & H2 & H3 & H4 & H5 & _).
  exists m1, m2, m3. repeat apply conj; assumption.
Defined.

Lemma identity_change_resubscribes_witness :
  userId (m_app signed_in_machine) <> Some (lit "u2")
  /\ lit "u2" <> []
  /\ collection (todos_segments plain_globals (lit "u2"))
     = Normal {| c_path := [lit "artifacts"; lit "default-app-id"; lit "users"; lit "u2";
                            lit "todos"] |}
  /\ exists m',
       step plain_globals signed_in_machine (AuthStateChanged (Some {| uid := lit "u2" |}))
       = Some m'
       /\ m_closed m' = [u1_todos]
       /\ m_listener m'
          = Some {| c_path := [lit "artifacts"; lit "default-app-id"; lit "users"; lit "u2";
                               lit "todos"] |}
       /\ m_life m'
          = [Opened u1_todos; Closed u1_todos;
             Opened {| c_path := [lit "artifacts"; lit "default-app-id"; lit "users";
                                  lit "u2"; lit "todos"] |}]
       /\ todos (m_app m') = [milk].
Proof.
  split; [discriminate|]. split; [discriminate|]. split; [reflexivity|].
  destruct (identity_change_resubscribes plain_globals signed_in_machine {| uid := lit "u2" |}
              {| c_path := [lit "artifacts"; lit "default-app-id"; lit "users"; lit "u2";
                            lit "todos"] |}
              ltac:(discriminate) ltac:(discriminate) eq_refl)
    as (m' & Hstep & _ & _ & Hclosed & Hlis & _ & Hlife & Htodos & _).
  exists m'. repeat apply conj; assumption.
Defined.

Lemma identity_repeat_keeps_listener_witness :
  userId (m_app signed_in_machine) = Some (lit "u1")
  /\ authReady (m_app signed_in_machine) = true
  /\ exists m',
       step plain_globals signed_in_machine (AuthStateChanged (Some {| uid := lit "u1" |}))
       = Some m'
       /\ m_listener m' = m_listener signed_in_machine
       /\ m_log m' = m_log signed_in_machine.
Proof.
  split; [reflexivity|]. split; [reflexivity|].
  destruct (identity_repeat_keeps_listener plain_globals signed_in_machine {| uid := lit "u1" |}
              eq_refl eq_refl)
    as (m' & Hstep & Hlis & _ & Hlog & _).
  exists m'. repeat apply conj; assumption.
Defined.

Lemma sign_out_keeps_listener_witness :
  authReady (m_app signed_in_machine) = true
  /\ exists m1 m2,
       step plain_globals signed_in_machine (AuthStateChanged None) = Some m1
       /\ step plain_globals m1 (Settled 0 (Some (MkError "unavailable"))) = Some m2
       /\ userId (m_app m2) = Some (lit "u1")
       /\ m_listener m2 = m_listener signed_in_machine.
Proof.
  split; [reflexivity|].
  destruct (sign_out_keeps_listener plain_globals signed_in_machine
              (Some (MkError "unavailable")) eq_refl)
    as (m1 & m2 & H1 & H2 & Hu & _ & Hlis & _).
  exists m1, m2. repeat apply conj; assumption.
Defined.
